(** * The todo application of [src/components/todo-app.js]

    A shallow embedding of the two React components of the file, [TodoApp]
    (the list controller) and [TodoItem] (the item controller), as one state
    machine over an explicit object store, a virtual clock, the list of
    promises awaiting their response and the log of the effects issued.

    JavaScript objects are shared by reference: the todo held by a row is the
    very object that sits in the [todos] array.  The store below keeps that
    aliasing. *)

From Stdlib Require Import ZArith Bool Ascii String Sorted Permutation Lia.
From Stdlib Require Import DecimalString DecimalNat.
From stdpp Require Import base list.

Local Open Scope Z_scope.

(** ** JavaScript values used by the components *)

(** A Number is a double: not a number, an infinity, or finite.  Every
    finite double is a whole multiple of 2^-1074, and [Num n] is the double
    [n * 2^-1074]; the two zeros, which no comparison tells apart, are both
    [Num 0]. *)
Inductive JsNumber : Type :=
| NaN
| Num (ulps : Z)
| Infinity (negative : bool).

(** [a > b] on numbers: every comparison with [NaN] is false. *)
Definition js_gt (a b : JsNumber) : bool :=
  match a, b with
  | NaN, _ | _, NaN => false
  | Num x, Num y => y <? x
  | Num _, Infinity negative => negative
  | Infinity negative, Num _ => negb negative
  | Infinity x, Infinity y => negb x && y
  end.

(** The integer nearest to [p / q], the even one of two that are as near. *)
Definition half_even (p q : Z) : Z :=
  let n := p / q in
  match 2 * (p mod q) ?= q with
  | Lt => n
  | Gt => n + 1
  | Eq => if Z.even n then n else n + 1
  end.

(** The double nearest to the rational [p / q], [0 <= p], [0 < q]: below
    2^-1021 doubles are 2^-1074 apart, above they have 53 significant bits,
    and from 2^1024 on the result is infinite. *)
Definition to_double (p q : Z) : JsNumber :=
  let P := p * 2 ^ 1074 in
  let f := P / q in
  if f <? 2 ^ 53 then Num (half_even P q)
  else
    let k := Z.log2 f - 52 in
    let s := half_even P (q * 2 ^ k) * 2 ^ k in
    if s <? 2 ^ 2098 then Num s else Infinity false.

Definition negate (x : JsNumber) : JsNumber :=
  match x with
  | NaN => NaN
  | Num n => Num (- n)
  | Infinity negative => Infinity (negb negative)
  end.

(** Strings are kept as the bytes of their UTF-8 form. *)
Definition byte (c : ascii) : Z := Z.of_N (N_of_ascii c).

(** The value of a digit in a base up to 16, letters in either case. *)
Definition digit_of (base : Z) (c : ascii) : option Z :=
  let n := byte c in
  let d := if (48 <=? n) && (n <=? 57) then n - 48
           else if (97 <=? n) && (n <=? 102) then n - 87
           else if (65 <=? n) && (n <=? 70) then n - 55
           else base in
  if d <? base then Some d else None.

(** The longest run of digits at the head of [s]: its value after [acc],
    the number of digits read after [count], and what follows. *)
Fixpoint take_digits (base acc : Z) (count : nat) (s : string) : Z * nat * string :=
  match s with
  | EmptyString => (acc, count, s)
  | String c s' =>
      match digit_of base c with
      | Some d => take_digits base (base * acc + d) (S count) s'
      | None => (acc, count, s)
      end
  end.

(** StrWhiteSpaceChar: TAB, LF, VT, FF, CR, SP, and in UTF-8 U+00A0, U+1680,
    U+2000 to U+200A, U+2028, U+2029, U+202F, U+205F, U+3000 and U+FEFF. *)
Definition white1 (c : ascii) : bool :=
  let n := byte c in ((9 <=? n) && (n <=? 13)) || (n =? 32).

Definition white2 (c d : ascii) : bool := (byte c =? 194) && (byte d =? 160).

Definition white3 (c d e : ascii) : bool :=
  let '(x, y, z) := (byte c, byte d, byte e) in
  ((x =? 225) && (y =? 154) && (z =? 128))
  || ((x =? 226) && (y =? 128)
      && (((128 <=? z) && (z <=? 138)) || (z =? 168) || (z =? 169) || (z =? 175)))
  || ((x =? 226) && (y =? 129) && (z =? 159))
  || ((x =? 227) && (y =? 128) && (z =? 128))
  || ((x =? 239) && (y =? 187) && (z =? 191)).

(** [s] without the white space at its head. *)
Fixpoint skip_white (s : string) : string :=
  match s with
  | String c r =>
      if white1 c then skip_white r
      else match r with
           | String d r' =>
               if white2 c d then skip_white r'
               else match r' with
                    | String e r'' => if white3 c d e then skip_white r'' else s
                    | EmptyString => s
                    end
           | EmptyString => s
           end
  | EmptyString => s
  end.

Definition starts_with (p s : string) : option string :=
  if String.prefix p s
  then Some (String.substring (String.length p) (String.length s - String.length p) s)
  else None.

(** NonDecimalIntegerLiteral: [0x], [0o] or [0b], in either case, and at
    least one digit of that base. *)
Definition non_decimal (s : string) : option (JsNumber * string) :=
  match s with
  | String z (String x r) =>
      let base := if (byte x =? 120) || (byte x =? 88) then 16
                  else if (byte x =? 111) || (byte x =? 79) then 8
                  else if (byte x =? 98) || (byte x =? 66) then 2
                  else 0 in
      if (byte z =? 48) && negb (base =? 0) then
        let '(v, n, rest) := take_digits base 0 0 r in
        match n with
        | O => None
        | _ => Some (to_double v 1, rest)
        end
      else None
  | _ => None
  end.

(** ExponentPart: [e] or [E], an optional sign and at least one digit; when
    there is none the exponent is 0 and nothing is read. *)
Definition exponent (s : string) : Z * string :=
  match s with
  | String e r =>
      if (byte e =? 101) || (byte e =? 69) then
        let '(neg, r1) :=
          match r with
          | String sg r' =>
              if byte sg =? 45 then (true, r')
              else if byte sg =? 43 then (false, r')
              else (false, r)
          | EmptyString => (false, r)
          end in
        let '(v, n, rest) := take_digits 10 0 0 r1 in
        match n with
        | O => (0, s)
        | _ => (if neg then - v else v, rest)
        end
      else (0, s)
  | EmptyString => (0, s)
  end.

(** StrUnsignedDecimalLiteral: [Infinity], or digits with an optional
    fraction and exponent, at least one digit before or after the point. *)
Definition unsigned_decimal (s : string) : option (JsNumber * string) :=
  match starts_with "Infinity"%string s with
  | Some rest => Some (Infinity false, rest)
  | None =>
      let '(i, ni, r1) := take_digits 10 0 0 s in
      let '(m, nf, r2) :=
        match r1 with
        | String dot r =>
            if byte dot =? 46
            then let '(m, n, r') := take_digits 10 i 0 r in (m, n, r')
            else (i, O, r1)
        | EmptyString => (i, O, r1)
        end in
      match (ni + nf)%nat with
      | O => None
      | _ =>
          let '(e, rest) := exponent r2 in
          let e10 := e - Z.of_nat nf in
          Some (if 0 <=? e10 then to_double (m * 10 ^ e10) 1
                else to_double m (10 ^ (- e10)), rest)
      end
  end.

(** StrDecimalLiteral: an optional sign first. *)
Definition decimal (s : string) : option (JsNumber * string) :=
  match s with
  | String sg r =>
      if byte sg =? 45 then
        match unsigned_decimal r with
        | Some (v, rest) => Some (negate v, rest)
        | None => None
        end
      else if byte sg =? 43 then unsigned_decimal r
      else unsigned_decimal s
  | EmptyString => None
  end.

(** [Number(s)] for a string: white space around the literal is dropped, a
    string with nothing else is 0, and a string that is not a literal as a
    whole is [NaN]. *)
Definition StringToNumber (s : string) : JsNumber :=
  let s1 := skip_white s in
  match s1 with
  | EmptyString => Num 0
  | _ =>
      match (match non_decimal s1 with Some r => Some r | None => decimal s1 end) with
      | Some (v, rest) =>
          match skip_white rest with
          | EmptyString => v
          | _ => NaN
          end
      | None => NaN
      end
  end.

(** An identifier is absent ([undefined]) or a string. *)
Definition JsId : Type := option string.

(** [Number(id)] *)
Definition Number (i : JsId) : JsNumber :=
  match i with
  | None => NaN
  | Some s => StringToNumber s
  end.

(** [!id]: [undefined] and the empty string are falsy. *)
Definition falsy (i : JsId) : bool :=
  match i with
  | None => true
  | Some s => String.eqb s EmptyString
  end.

(** [a === b] on identifiers *)
Definition strict_eq (a b : JsId) : bool :=
  match a, b with
  | None, None => true
  | Some x, Some y => String.eqb x y
  | _, _ => false
  end.

(** ** Todo objects and the object store *)

Module Todo.
Record t : Type := make { id : JsId; text : string; createdAt : option Z }.

(** [{ text: "" }], the object [setNewTodo] is given by the "+" button *)
Definition blank : t := make None EmptyString None.

Definition set_text (s : string) (o : t) : t := make (id o) s (createdAt o).
Definition set_createdAt (z : Z) (o : t) : t := make (id o) (text o) (Some z).
End Todo.

Abbreviation loc := nat (only parsing).
Abbreviation heap := (list Todo.t) (only parsing).

(** Reading through a reference. Every reference the machine holds was
    allocated, the default is never reached by a reachable state. *)
Definition deref (h : heap) (l : loc) : Todo.t := default Todo.blank (h !! l).

Definition alloc (h : heap) (o : Todo.t) : heap * loc := (h ++ [o], length h).

Fixpoint alloc_all (h : heap) (os : list Todo.t) : heap * list loc :=
  match os with
  | [] => (h, [])
  | o :: os' =>
      let '(h1, l) := alloc h o in
      let '(h2, ls) := alloc_all h1 os' in
      (h2, l :: ls)
  end.

(** [o.f = v] on the object at [l] *)
Definition modify (h : heap) (l : loc) (f : Todo.t -> Todo.t) : heap :=
  <[ l := f (deref h l) ]> h.

Definition id_of (h : heap) (l : loc) : JsId := Todo.id (deref h l).
Definition text_of (h : heap) (l : loc) : string := Todo.text (deref h l).

(** ** [Array.prototype.sort] and [reverse]

    [sort] is modelled as the insertion sort engines use for short arrays:
    each element in turn is moved left past every element the comparator
    ranks strictly above it.  The sorted prefix is kept reversed, so that
    the element next to the insertion point is at the head. *)
Section Sort.
Context {A : Type} (comparefn : A -> A -> Z).

Fixpoint insert_back (element : A) (prefix_rev : list A) : list A :=
  match prefix_rev with
  | [] => [element]
  | tmp :: rest =>
      if 0 <? comparefn tmp element
      then tmp :: insert_back element rest
      else element :: tmp :: rest
  end.

Definition sort_rev (a : list A) : list A :=
  fold_left (fun prefix_rev element => insert_back element prefix_rev) a [].

Definition js_sort (a : list A) : list A := rev (sort_rev a).
End Sort.

(** The comparator of the render function:
    [(a, b) => (Number(a.id) > Number(b.id) ? 1 : -1)] *)
Definition compare_ids (h : heap) (a b : loc) : Z :=
  if js_gt (Number (id_of h a)) (Number (id_of h b)) then 1 else -1.

(** [todos.sort(...).reverse()]: the order in which rows are rendered, and,
    both calls working in place, the order [todos] is left in. *)
Definition sorted_todos (h : heap) (todos : list loc) : list loc :=
  rev (js_sort (compare_ids h) todos).

(** ** The state updaters of the list controller *)

(** [todos => [todo, ...todos]] *)
Definition addTodo_fn (todo : loc) (todos : list loc) : list loc := todo :: todos.

(** [todos => [...todos.map(g => g.id === todo.id ? todo : g)]] *)
Definition updateTodo_fn (h : heap) (todo : loc) (todos : list loc) : list loc :=
  map (fun globalTodo =>
         if strict_eq (id_of h globalTodo) (id_of h todo) then todo else globalTodo)
      todos.

(** [todos => [...todos.filter(g => g.id !== todo.id)]] *)
Definition removeTodo_fn (h : heap) (todo : loc) (todos : list loc) : list loc :=
  List.filter (fun globalTodo => negb (strict_eq (id_of h globalTodo) (id_of h todo)))
              todos.

(** ** Effects, promises and responses *)

(** What the components ask of the outside, in the order they ask it. *)
Inductive Effect : Type :=
| LoadDb                                   (* loadDb(), on module load *)
| ResetDb                                  (* resetDb() *)
| FetchList                                (* fetch("/api/todos") *)
| FetchCreate (body : Todo.t)              (* POST /api/todos *)
| FetchSave (id : JsId) (body : Todo.t)    (* PATCH /api/todos/${todo.id} *)
| FetchDestroy (id : JsId).                (* DELETE /api/todos/${todo.id} *)

(** A [then] callback waiting for its response, with what its closure
    captured: the instance whose [setIsSaving] it calls, whether the prop it
    calls was passed, and for a delete the todo it reports. *)
Inductive Pending : Type :=
| AwaitList
| AwaitCreate (item : nat) (didCreate : bool)
| AwaitSave (item : nat) (didSave : bool)
| AwaitDestroy (item : nat) (didDestroy : bool) (todo : loc).

Inductive Response : Type :=
| RList (json : list Todo.t)
| RItem (json : Todo.t)
| ROk.

(** ** One [TodoItem] instance: its props and its hooks *)

Module Item.
Record t : Type := make {
  uid : nat;               (* identity of the mounted instance *)
  key : JsId;              (* [key={todo.id}], undefined for the draft *)
  didCreate : bool;        (* was the prop passed *)
  didSave : bool;
  didDestroy : bool;
  autofocus : bool;
  todo : loc;
  text : string;           (* useState(todo.text) *)
  isSaving : bool;
  isChecked : bool;
  timeout : option Z       (* due time of the pending setTimeout, if any *)
}.

Definition set_todo (l : loc) (i : t) : t :=
  make (uid i) (key i) (didCreate i) (didSave i) (didDestroy i) (autofocus i)
       l (text i) (isSaving i) (isChecked i) (timeout i).
Definition setText (s : string) (i : t) : t :=
  make (uid i) (key i) (didCreate i) (didSave i) (didDestroy i) (autofocus i)
       (todo i) s (isSaving i) (isChecked i) (timeout i).
Definition setIsSaving (b : bool) (i : t) : t :=
  make (uid i) (key i) (didCreate i) (didSave i) (didDestroy i) (autofocus i)
       (todo i) (text i) b (isChecked i) (timeout i).
Definition setIsChecked (b : bool) (i : t) : t :=
  make (uid i) (key i) (didCreate i) (didSave i) (didDestroy i) (autofocus i)
       (todo i) (text i) (isSaving i) b (timeout i).
Definition set_timeout (d : option Z) (i : t) : t :=
  make (uid i) (key i) (didCreate i) (didSave i) (didDestroy i) (autofocus i)
       (todo i) (text i) (isSaving i) (isChecked i) d.

(** The delay of the check gesture *)
Definition delay : Z := 1250.

(** The effect with dependencies [[isChecked, didDestroy, todo]], cleanup
    included: the previous timeout is cleared, and a new one is set when
    the box is checked. *)
Definition effect (now : Z) (i : t) : t :=
  set_timeout (if isChecked i then Some (now + delay) else None) i.

(** [<TodoItem todo={newTodo} didCreate={addTodo} autofocus={true} />] *)
Definition mount_draft (u : nat) (h : heap) (l : loc) : t :=
  make u None true false false true l (text_of h l) false false None.

(** [<TodoItem todo={todo} didSave={updateTodo} didDestroy={removeTodo}
    key={todo.id} />] *)
Definition mount_row (u : nat) (h : heap) (l : loc) : t :=
  make u (id_of h l) false true true false l (text_of h l) false false None.

(** What the rendered row offers: the checkbox is always rendered, given
    the class [opacity-0] when the todo has no id, and disabled, like the
    text input, while saving. *)
Record view : Type := make_view {
  checkbox_rendered : bool;
  checkbox_transparent : bool;
  checkbox_checked : bool;
  checkbox_disabled : bool;
  input_value : string;
  input_disabled : bool;
  spinner : bool
}.

Definition render (h : heap) (i : t) : view :=
  make_view true (falsy (id_of h (todo i))) (isChecked i) (isSaving i)
            (text i) (isSaving i) (isSaving i).
End Item.

(** ** The state of the whole application *)

Module App.
Record t : Type := make {
  server : bool;                (* is the imported [server] truthy *)
  store : heap;                 (* the objects *)
  isLoading : bool;             (* useState(false) *)
  todos : list loc;             (* useState([]) *)
  newTodo : option loc;         (* useState(null) *)
  refresh : Z;                  (* useState(0) *)
  isMounted : bool;             (* isMounted.current *)
  alive : bool;                 (* is the component still mounted *)
  draft : option Item.t;        (* the instance rendered for [newTodo] *)
  rows : list Item.t;           (* the instances rendered for [todos] *)
  next_uid : nat;               (* next instance identity *)
  now : Z;                      (* the clock, in ms *)
  pending : list Pending;       (* callbacks awaiting a response *)
  log : list Effect             (* effects issued, oldest first *)
}.

Definition set_store (v : heap) (a : t) : t :=
  make (server a) v (isLoading a) (todos a) (newTodo a) (refresh a) (isMounted a) (alive a) (draft a) (rows a) (next_uid a) (now a) (pending a) (log a).
Definition set_isLoading (v : bool) (a : t) : t :=
  make (server a) (store a) v (todos a) (newTodo a) (refresh a) (isMounted a) (alive a) (draft a) (rows a) (next_uid a) (now a) (pending a) (log a).
Definition set_todos (v : list loc) (a : t) : t :=
  make (server a) (store a) (isLoading a) v (newTodo a) (refresh a) (isMounted a) (alive a) (draft a) (rows a) (next_uid a) (now a) (pending a) (log a).
Definition set_newTodo (v : option loc) (a : t) : t :=
  make (server a) (store a) (isLoading a) (todos a) v (refresh a) (isMounted a) (alive a) (draft a) (rows a) (next_uid a) (now a) (pending a) (log a).
Definition set_refresh (v : Z) (a : t) : t :=
  make (server a) (store a) (isLoading a) (todos a) (newTodo a) v (isMounted a) (alive a) (draft a) (rows a) (next_uid a) (now a) (pending a) (log a).
Definition set_isMounted (v : bool) (a : t) : t :=
  make (server a) (store a) (isLoading a) (todos a) (newTodo a) (refresh a) v (alive a) (draft a) (rows a) (next_uid a) (now a) (pending a) (log a).
Definition set_alive (v : bool) (a : t) : t :=
  make (server a) (store a) (isLoading a) (todos a) (newTodo a) (refresh a) (isMounted a) v (draft a) (rows a) (next_uid a) (now a) (pending a) (log a).
Definition set_draft (v : option Item.t) (a : t) : t :=
  make (server a) (store a) (isLoading a) (todos a) (newTodo a) (refresh a) (isMounted a) (alive a) v (rows a) (next_uid a) (now a) (pending a) (log a).
Definition set_rows (v : list Item.t) (a : t) : t :=
  make (server a) (store a) (isLoading a) (todos a) (newTodo a) (refresh a) (isMounted a) (alive a) (draft a) v (next_uid a) (now a) (pending a) (log a).
Definition set_next_uid (v : nat) (a : t) : t :=
  make (server a) (store a) (isLoading a) (todos a) (newTodo a) (refresh a) (isMounted a) (alive a) (draft a) (rows a) v (now a) (pending a) (log a).
Definition set_now (v : Z) (a : t) : t :=
  make (server a) (store a) (isLoading a) (todos a) (newTodo a) (refresh a) (isMounted a) (alive a) (draft a) (rows a) (next_uid a) v (pending a) (log a).
Definition set_pending (v : list Pending) (a : t) : t :=
  make (server a) (store a) (isLoading a) (todos a) (newTodo a) (refresh a) (isMounted a) (alive a) (draft a) (rows a) (next_uid a) (now a) v (log a).
Definition set_log (v : list Effect) (a : t) : t :=
  make (server a) (store a) (isLoading a) (todos a) (newTodo a) (refresh a) (isMounted a) (alive a) (draft a) (rows a) (next_uid a) (now a) (pending a) v.
End App.

Import App.

(** ** Rendering

    A render of [TodoApp] sorts and reverses [todos] in place and renders one
    [TodoItem] for the draft and one per todo.  React keeps the instance of a
    row whose key it has seen and mounts a new one otherwise; a row that is no
    longer rendered is unmounted, which clears its timeout. *)

Definition fetch (e : Effect) (p : Pending) (a : App.t) : App.t :=
  set_pending (pending a ++ [p]) (set_log (log a ++ [e]) a).

Definition instances (a : App.t) : list Item.t :=
  match draft a with
  | Some d => d :: rows a
  | None => rows a
  end.

Definition find_item (u : nat) (a : App.t) : option Item.t :=
  List.find (fun i => Nat.eqb (Item.uid i) u) (instances a).

Definition on_item (u : nat) (f : Item.t -> Item.t) (i : Item.t) : Item.t :=
  if Nat.eqb (Item.uid i) u then f i else i.

(** A state setter of the instance [u]; nothing happens when the instance is
    no longer mounted. *)
Definition update_item (u : nat) (f : Item.t -> Item.t) (a : App.t) : App.t :=
  set_rows (map (on_item u f) (rows a))
           (set_draft (option_map (on_item u f) (draft a)) a).

(** The draft slot: the instance is kept while [newTodo] is an object, and
    its effect runs again only when [todo] is another object ([didDestroy]
    is undefined on every render). *)
Definition render_draft (now : Z) (h : heap) (old : option Item.t) (u : nat)
    (newTodo : option loc) : option Item.t * nat :=
  match newTodo with
  | None => (None, u)
  | Some l =>
      match old with
      | Some i =>
          (Some (if Nat.eqb (Item.todo i) l then i
                 else Item.effect now (Item.set_todo l i)), u)
      | None => (Some (Item.mount_draft u h l), S u)
      end
  end.

(** The rows: [removeTodo] is a new function on every render of [TodoApp],
    so the effect of every row that is kept runs again.  A row is matched
    with the instance that has its key, the id of its todo; two todos with one
    id, or todos without id, for which React matches by position or not at
    all, are matched on the key all the same. *)
Fixpoint render_rows (now : Z) (h : heap) (old : list Item.t) (u : nat)
    (ts : list loc) : list Item.t * nat :=
  match ts with
  | [] => ([], u)
  | l :: ts' =>
      match List.find (fun i => strict_eq (Item.key i) (id_of h l)) old with
      | Some i =>
          let '(r, u') := render_rows now h old u ts' in
          (Item.effect now (Item.set_todo l i) :: r, u')
      | None =>
          let '(r, u') := render_rows now h old (S u) ts' in
          (Item.mount_row u h l :: r, u')
      end
  end.

Definition render (a : App.t) : App.t :=
  if negb (alive a) then a
  else if isLoading a then set_rows [] (set_draft None a)
  else
    let ts := sorted_todos (store a) (todos a) in
    let '(d, u1) := render_draft (now a) (store a) (draft a) (next_uid a) (newTodo a) in
    let '(rs, u2) := render_rows (now a) (store a) (rows a) u1 ts in
    set_next_uid u2 (set_rows rs (set_draft d (set_todos ts a))).

(** The todos shown, top to bottom. *)
Definition displayed (a : App.t) : list loc := map Item.todo (instances a).

(** ** The list controller, [TodoApp] *)

(** The body of the effect with dependencies [[refresh]] *)
Definition load_effect (a : App.t) : App.t :=
  render (fetch FetchList AwaitList (set_isLoading true a)).

(** Its cleanup: [isMounted.current = false] *)
Definition load_cleanup (a : App.t) : App.t := set_isMounted false a.

(** Module load, first render and first run of the effect. *)
Definition mount (server : bool) (now : Z) : App.t :=
  load_effect
    (render (App.make server [] false [] None 0 true true None [] 0%nat now [] [LoadDb])).

(** The [then] of the list request *)
Definition loaded (json : list Todo.t) (a : App.t) : App.t :=
  if isMounted a then
    let '(h, ls) := alloc_all (store a) json in
    render (set_isLoading false (set_todos ls (set_store h a)))
  else a.

(** The setters of an unmounted component do nothing.  [addTodo] runs in a
    promise callback, where each of its two setters renders at once. *)
Definition addTodo (todo : loc) (a : App.t) : App.t :=
  if alive a
  then
    let a1 := render (set_newTodo None a) in
    render (set_todos (addTodo_fn todo (todos a1)) a1)
  else a.

Definition updateTodo (todo : loc) (a : App.t) : App.t :=
  if alive a
  then render (set_todos (updateTodo_fn (store a) todo (todos a)) a)
  else a.

Definition removeTodo (todo : loc) (a : App.t) : App.t :=
  if alive a
  then render (set_todos (removeTodo_fn (store a) todo (todos a)) a)
  else a.

(** [resetApp]: the new value of [refresh] makes the effect run again, its
    cleanup first. *)
Definition resetApp (a : App.t) : App.t :=
  if server a then
    let a1 := set_log (log a ++ [ResetDb]) a in
    let a2 := render (set_refresh (refresh a1 + 1) a1) in
    load_effect (load_cleanup a2)
  else a.

(** The "+" button: [setNewTodo({ text: "" })] *)
Definition startDraft (a : App.t) : App.t :=
  let '(h, l) := alloc (store a) Todo.blank in
  render (set_newTodo (Some l) (set_store h a)).

(** Unmounting [TodoApp] runs the cleanup and unmounts every row. *)
Definition unmount (a : App.t) : App.t :=
  set_alive false (set_rows [] (set_draft None (load_cleanup a))).

(** ** The item controller, [TodoItem] *)

Definition createTodo (i : Item.t) (a : App.t) : App.t :=
  let a1 := update_item (Item.uid i) (Item.setIsSaving true) a in
  let h1 := modify (store a1) (Item.todo i) (Todo.set_text (Item.text i)) in
  let h2 := modify h1 (Item.todo i) (Todo.set_createdAt (now a1)) in
  fetch (FetchCreate (deref h2 (Item.todo i)))
        (AwaitCreate (Item.uid i) (Item.didCreate i))
        (set_store h2 a1).

Definition saveTodo (i : Item.t) (a : App.t) : App.t :=
  let a1 := update_item (Item.uid i) (Item.setIsSaving true) a in
  let h1 := modify (store a1) (Item.todo i) (Todo.set_text (Item.text i)) in
  fetch (FetchSave (id_of h1 (Item.todo i)) (deref h1 (Item.todo i)))
        (AwaitSave (Item.uid i) (Item.didSave i))
        (set_store h1 a1).

Definition handleSubmit (u : nat) (a : App.t) : App.t :=
  match find_item u a with
  | None => a
  | Some i =>
      if falsy (id_of (store a) (Item.todo i)) then createTodo i a
      else if negb (String.eqb (text_of (store a) (Item.todo i)) (Item.text i))
           then saveTodo i a
           else a
  end.

(** [setIsChecked(event.target.checked)]; the effect runs when the value
    changed. *)
Definition handleCheckboxChange (u : nat) (checked : bool) (a : App.t) : App.t :=
  update_item u
    (fun i => if Bool.eqb (Item.isChecked i) checked then i
              else Item.effect (now a) (Item.setIsChecked checked i))
    a.

Definition destroyTodo (i : Item.t) (a : App.t) : App.t :=
  let a1 := update_item (Item.uid i) (Item.setIsSaving true) a in
  fetch (FetchDestroy (id_of (store a1) (Item.todo i)))
        (AwaitDestroy (Item.uid i) (Item.didDestroy i) (Item.todo i))
        a1.

(** The timeout of [i] fires. *)
Definition fire (i : Item.t) (a : App.t) : App.t :=
  destroyTodo i (update_item (Item.uid i) (Item.set_timeout None) a).

Definition due (now : Z) (i : Item.t) : bool :=
  match Item.timeout i with
  | Some t => t <=? now
  | None => false
  end.

(** [ms] milliseconds pass; the timeouts that are due fire, top row first. *)
Definition elapse (ms : Z) (a : App.t) : App.t :=
  let a1 := set_now (now a + Z.max 0 ms) a in
  fold_left (fun s i => fire i s) (List.filter (due (now a1)) (instances a1)) a1.

(** The callbacks of [createTodo], [saveTodo] and [destroyTodo]; calling a
    prop that was not passed throws, after [setIsSaving(false)]. *)
Definition created (u : nat) (didCreate : bool) (json : Todo.t) (a : App.t) : App.t :=
  let a1 := update_item u (Item.setIsSaving false) a in
  if didCreate then
    let '(h, l) := alloc (store a1) json in addTodo l (set_store h a1)
  else a1.

Definition saved (u : nat) (didSave : bool) (json : Todo.t) (a : App.t) : App.t :=
  let a1 := update_item u (Item.setIsSaving false) a in
  if didSave then
    let '(h, l) := alloc (store a1) json in updateTodo l (set_store h a1)
  else a1.

Definition destroyed (u : nat) (didDestroy : bool) (todo : loc) (a : App.t) : App.t :=
  let a1 := update_item u (Item.setIsSaving false) a in
  if didDestroy then removeTodo todo a1 else a1.

(** ** Events *)

(** The response to the [n]th pending request arrives.  A list answers the
    list request and an item a create or an update request; any other pair
    is no response to that request and changes nothing. *)
Definition respond (n : nat) (r : Response) (a : App.t) : App.t :=
  match pending a !! n with
  | None => a
  | Some p =>
      let a1 := set_pending (delete n (pending a)) a in
      match p, r with
      | AwaitList, RList json => loaded json a1
      | AwaitCreate u dc, RItem json => created u dc json a1
      | AwaitSave u ds, RItem json => saved u ds json a1
      | AwaitDestroy u dd l, _ => destroyed u dd l a1
      | _, _ => a
      end
  end.

Inductive Event : Type :=
| ClickAdd
| ClickReset
| Change (u : nat) (value : string)     (* typing in the text input *)
| Commit (u : nat)                      (* submit of the form, blur of the input *)
| Check (u : nat) (checked : bool)      (* change of the checkbox *)
| Elapse (ms : Z)
| Respond (n : nat) (r : Response)
| Unmount
| Reject (n : nat).                     (* the [n]th pending request fails *)

(** A request that fails, or whose body [res.json()] cannot read, rejects
    its promise: no [catch] follows, and the callback is dropped without
    having run. *)
Definition reject (n : nat) (a : App.t) : App.t :=
  set_pending (delete n (pending a)) a.

(** A disabled input or checkbox receives no change event, and the "+"
    button is rendered only when the list is.  [<form onSubmit={handleSubmit}>]
    tests nothing: a submit event reaches [handleSubmit] whatever the state
    of the item. *)
Definition enabled (u : nat) (a : App.t) : bool :=
  match find_item u a with
  | Some i => negb (Item.isSaving i)
  | None => false
  end.

Definition step (a : App.t) (e : Event) : App.t :=
  match e with
  | ClickAdd => if alive a && negb (isLoading a) then startDraft a else a
  | ClickReset => if alive a then resetApp a else a
  | Change u s => if enabled u a then update_item u (Item.setText s) a else a
  | Commit u => handleSubmit u a
  | Check u b => if enabled u a then handleCheckboxChange u b a else a
  | Elapse ms => elapse ms a
  | Respond n r => respond n r a
  | Unmount => if alive a then unmount a else a
  | Reject n => reject n a
  end.

Definition run (a : App.t) (es : list Event) : App.t := fold_left step es a.

(** The delete requests for [id] in a log. *)
Definition is_destroy (id : JsId) (e : Effect) : bool :=
  match e with
  | FetchDestroy i => strict_eq i id
  | _ => false
  end.


(** ** Vocabulary of the properties *)

(** The number the identifier of a todo stands for. *)
Definition num_of (h : heap) (l : loc) : JsNumber := Number (id_of h l).

Definition numeric (h : heap) (l : loc) : Prop := Number (id_of h l) <> NaN.

Definition numericb (h : heap) (l : loc) : bool :=
  match Number (id_of h l) with
  | NaN => false
  | _ => true
  end.

(** [a <= b] as numbers, neither being [NaN]. *)
Definition js_le (a b : JsNumber) : Prop :=
  match a, b with
  | NaN, _ | _, NaN => False
  | Num x, Num y => x <= y
  | Infinity true, _ => True
  | _, Infinity false => True
  | _, _ => False
  end.

(** [x] is shown above [y] only if its identifier is at least as large. *)
Definition descending (h : heap) (x y : loc) : Prop := js_le (num_of h y) (num_of h x).

(** "10" is shown above "9": the comparison is on numbers, not on strings;
    the draft stays on top. *)
Definition two_rows_and_draft : App.t :=
  run (mount true 0)
      [Respond 0%nat (RList [Todo.make (Some "9"%string) "nine"%string None;
                             Todo.make (Some "10"%string) "ten"%string None]);
       ClickAdd].

(** What can be seen of the components: all of the state but the clock and
    the bookkeeping of the promises. *)
Definition observable (a : App.t)
  : heap * bool * list loc * option loc * Z * option Item.t * list Item.t * list Effect :=
  (store a, isLoading a, todos a, newTodo a, refresh a, draft a, rows a, log a).

(** The collection as values: the todo objects of [todos], in order. *)
Definition collection (a : App.t) : list Todo.t := map (deref (store a)) (todos a).

(** A persisted todo whose text was edited to "B" and not yet committed. *)
Definition edited_row : App.t :=
  run (mount true 0)
      [Respond 0%nat (RList [Todo.make (Some "1"%string) "A"%string None]);
       Change 0%nat "B"%string].

(** The draft of [two_rows_and_draft] with "C" typed in, before and after
    its commit. *)
Definition typed_draft : App.t := step two_rows_and_draft (Change 2%nat "C"%string).

(** [edited_row] once committed: the row is saving. *)
Definition saving_row : App.t := step edited_row (Commit 0%nat).

(** One persisted todo, loaded. *)
Definition one_row : App.t :=
  run (mount true 0)
      [Respond 0%nat (RList [Todo.make (Some "1"%string) "A"%string None])].

(** The same after a click on "Reset app". *)
Definition after_reset : App.t := step one_row ClickReset.

Definition destroys (id : JsId) (a : App.t) : list Effect :=
  List.filter (is_destroy id) (log a).

(** ** States the application can be in *)

Definition reachable (a : App.t) : Prop :=
  exists server t0 es, a = run (mount server t0) es.

(** What holds of the store and of the state proper ... *)
Definition wf_store (a : App.t) : Prop :=
  (alive a = false -> draft a = None /\ rows a = []) /\
  (forall i, draft a = Some i -> Item.didCreate i = true) /\
  (forall l, newTodo a = Some l ->
             (l < length (store a))%nat /\ id_of (store a) l = None) /\
  Forall (fun l => (l < length (store a))%nat) (todos a).

(** ... and of the instances once rendered: the draft instance holds the
    object of [newTodo], which has no id, and every row holds a member of
    the collection. *)
Definition wf (a : App.t) : Prop :=
  wf_store a /\
  (forall i, draft a = Some i -> newTodo a = Some (Item.todo i)) /\
  Forall (fun i => In (Item.todo i) (todos a)) (rows a).

(** Setters of one instance that leave its props alone. *)
Definition keeps_props (f : Item.t -> Item.t) : Prop :=
  forall i, Item.didCreate (f i) = Item.didCreate i /\ Item.todo (f i) = Item.todo i.

(** ** Proof steps that recur *)

(** Case analysis on the tests of a handler. *)
Ltac break_match :=
  repeat match goal with
         | |- context [if ?b then _ else _] => destruct b eqn:?
         | |- context [let '(_, _) := ?p in _] => destruct p eqn:?
         | |- context [match ?o with Some _ => _ | None => _ end] => destruct o eqn:?
         end.

(** A field that [render] does not write. *)
Ltac render_keeps := unfold render; break_match; simpl; congruence.

(** The seven parts of [wf]. *)
Ltac wf_split := split; [split; [|split; [|split]] | split].

(** ** The rest of what [TodoApp] renders *)

(** The line at the top right: nothing while loading, the number of todos
    left, or "All done!" when there is none. *)
Inductive Header : Type :=
| Blank
| Left (n : nat)
| AllDone.

(** [!isLoading && (todos.length ? <span>{todos.length} left</span>
    : <span>All done!</span>)] *)
Definition header (a : App.t) : Header :=
  if isLoading a then Blank
  else match length (todos a) with
       | O => AllDone
       | n => Left n
       end.

(** Is the list rendered: the component is mounted and not loading. *)
Definition shown (a : App.t) : bool := alive a && negb (isLoading a).

(** ** Vocabulary of the further properties *)

(** The instances are those of the last render: one row per todo, in the
    order of [todos], and a draft exactly for [newTodo]; none when the list
    is not rendered. *)
Definition in_sync (a : App.t) : Prop :=
  if shown a
  then map Item.todo (rows a) = todos a /\
       option_map Item.todo (draft a) = newTodo a
  else rows a = [] /\ draft a = None.

Definition strictly_descending (h : heap) (x y : loc) : Prop :=
  js_gt (num_of h x) (num_of h y) = true.

(** A timeout is pending only for a checked box, and is due within the
    delay. *)
Definition timer_ok (now : Z) (i : Item.t) : Prop :=
  forall t, Item.timeout i = Some t ->
            Item.isChecked i = true /\ t <= now + Item.delay.

(** The store [h'] has all the objects of [h], with the ids they had. *)
Definition extends (h h' : heap) : Prop :=
  (length h <= length h')%nat /\
  forall l, (l < length h)%nat -> id_of h' l = id_of h l.

(** The list requests and the reseeds in a log. *)
Definition is_reload (e : Effect) : bool :=
  match e with
  | ResetDb | FetchList => true
  | _ => false
  end.

Definition reloads (a : App.t) : list Effect := List.filter is_reload (log a).

(** The delete callbacks of the instance [u] among the pending ones. *)
Definition destroy_of (u : nat) (p : Pending) : bool :=
  match p with
  | AwaitDestroy v _ _ => Nat.eqb v u
  | _ => false
  end.

(** The callback [destroyTodo] registers for the instance [i]. *)
Definition await_destroy (i : Item.t) : Pending :=
  AwaitDestroy (Item.uid i) (Item.didDestroy i) (Item.todo i).

(** The decimal numeral of a natural number, the form of the ids the server
    assigns. *)
Definition numeral (n : nat) : string := NilEmpty.string_of_uint (Nat.to_uint n).

(** The strings of decimal digits. *)
Fixpoint all_digits (s : string) : Prop :=
  match s with
  | EmptyString => True
  | String c r => 48 <= byte c <= 57 /\ all_digits r
  end.

(** Nothing is rendered for a component that is unmounted. *)
Definition dead_empty (a : App.t) : Prop :=
  alive a = false -> rows a = [] /\ draft a = None.

(** Setters of one instance that leave its [todo] prop alone. *)
Definition keeps_todo (f : Item.t -> Item.t) : Prop :=
  forall i, Item.todo (f i) = Item.todo i.

(** The events whose handlers call [fetch], [setTimeout]'s callback
    included. *)
Definition issues (e : Event) : bool :=
  match e with
  | Commit _ | Elapse _ | ClickReset => true
  | _ => false
  end.

(** The component is unmounted: its cleanup has run and its rows are gone. *)
Definition torn_down (a : App.t) : Prop :=
  alive a = false /\ isMounted a = false /\ rows a = [] /\ draft a = None.

(** [s'] has the state and the log of [s], and the objects of [s] as they
    were. *)
Definition unchanged (s s' : App.t) : Prop :=
  isLoading s' = isLoading s /\ todos s' = todos s /\ newTodo s' = newTodo s /\
  refresh s' = refresh s /\ log s' = log s /\
  (length (store s) <= length (store s'))%nat /\
  forall l, (l < length (store s))%nat -> deref (store s') l = deref (store s) l.

Definition timers_ok (a : App.t) : Prop :=
  (forall d, draft a = Some d -> timer_ok (now a) d) /\
  Forall (timer_ok (now a)) (rows a).

(** A todo whose text was edited during the countdown of its checkbox: the
    delete request is outstanding and the buffer is not the text. *)
Definition saving_by_delete : App.t :=
  run one_row [Check 0%nat true; Change 0%nat "X"%string; Elapse 1250].

(** An unsaved todo with its box checked, the countdown running. *)
Definition checked_row : App.t := step one_row (Check 0%nat true).

(** The instance whose [setIsSaving] a pending callback calls. *)
Definition owner (p : Pending) : option nat :=
  match p with
  | AwaitList => None
  | AwaitCreate u _ | AwaitSave u _ | AwaitDestroy u _ _ => Some u
  end.

(** The events that are the failure of a request. *)
Definition fails (e : Event) : bool :=
  match e with
  | Reject _ => true
  | _ => false
  end.

(** The states reached when no request fails. *)
Definition reachable_unfailing (a : App.t) : Prop :=
  exists server t0 es,
    forallb (fun e => negb (fails e)) es = true /\ a = run (mount server t0) es.

(** An instance that shows as saving has a request of its own in flight. *)
Definition saving_waits (ps : list Pending) (i : Item.t) : Prop :=
  Item.isSaving i = true -> In (Some (Item.uid i)) (map owner ps).

Definition saving_ok (a : App.t) : Prop :=
  Forall (saving_waits (pending a)) (instances a).

(** * Properties *)

Lemma strict_eq_spec (a b : JsId) : strict_eq a b = true <-> a = b.
Proof.
  destruct a as [x|], b as [y|]; simpl; try (split; congruence).
  rewrite String.eqb_eq. split; congruence.
Qed.

Lemma strict_eq_refl (a : JsId) : strict_eq a a = true.
Proof. now apply strict_eq_spec. Qed.

(** ** The order of display *)

Section SortFacts.
Context {A : Type} (comparefn : A -> A -> Z).

Lemma insert_back_perm (x : A) (r : list A) :
  Permutation (insert_back comparefn x r) (x :: r).
Proof.
  induction r as [|tmp rest IH]; simpl; [reflexivity|].
  destruct (0 <? comparefn tmp x); [|reflexivity].
  rewrite IH. apply perm_swap.
Qed.

Lemma fold_insert_perm (l acc : list A) :
  Permutation
    (fold_left (fun prefix_rev element => insert_back comparefn element prefix_rev) l acc)
    (l ++ acc).
Proof.
  revert acc. induction l as [|x l IH]; intros acc; simpl; [reflexivity|].
  rewrite IH, insert_back_perm. symmetry. apply Permutation_middle.
Qed.

Lemma sort_rev_perm (l : list A) : Permutation (sort_rev comparefn l) l.
Proof.
  unfold sort_rev. rewrite fold_insert_perm. now rewrite app_nil_r.
Qed.
End SortFacts.

Lemma js_gt_le (a b : JsNumber) : js_gt a b = true -> js_le b a.
Proof.
  destruct a as [|x|[|]], b as [|y|[|]]; simpl; try discriminate; try tauto.
  intros H. apply Z.ltb_lt in H. lia.
Qed.

Lemma js_not_gt_le (a b : JsNumber) :
  a <> NaN -> b <> NaN -> js_gt a b = false -> js_le a b.
Proof.
  destruct a as [|x|[|]], b as [|y|[|]]; simpl; try discriminate; try tauto.
  intros _ _ H. apply Z.ltb_ge in H. exact H.
Qed.

Lemma js_le_trans (a b c : JsNumber) : js_le a b -> js_le b c -> js_le a c.
Proof.
  destruct a as [|x|[|]], b as [|y|[|]], c as [|z|[|]]; simpl; try tauto; lia.
Qed.

Lemma numericb_Forall (h : heap) (ts : list loc) :
  forallb (numericb h) ts = true -> Forall (numeric h) ts.
Proof.
  intros H. apply List.Forall_forall. intros l Hl.
  rewrite forallb_forall in H. specialize (H l Hl).
  unfold numericb, numeric in *. now destruct (Number (id_of h l)).
Qed.

Lemma compare_ids_pos (h : heap) (a b : loc) :
  (0 <? compare_ids h a b) = js_gt (num_of h a) (num_of h b).
Proof. unfold compare_ids, num_of. now destruct (js_gt _ _). Qed.

Lemma insert_back_sorted (h : heap) (x : loc) (r : list loc) :
  numeric h x -> Forall (numeric h) r ->
  StronglySorted (descending h) r ->
  StronglySorted (descending h) (insert_back (compare_ids h) x r).
Proof.
  intros Hx Hr Hs. induction Hs as [|tmp rest Hs IH Hall]; simpl.
  - repeat constructor.
  - apply Forall_cons_1 in Hr as [Htmp Hrest].
    rewrite compare_ids_pos.
    destruct (js_gt (num_of h tmp) (num_of h x)) eqn:Hgt.
    + constructor; [now apply IH|].
      rewrite (insert_back_perm (compare_ids h) x rest).
      constructor; [now apply js_gt_le | assumption].
    + assert (Hle : descending h x tmp) by now apply js_not_gt_le.
      constructor; [now constructor|].
      constructor; [exact Hle|].
      eapply Forall_impl; [exact Hall|].
      unfold descending in *. intros y Hy. now apply js_le_trans with (num_of h tmp).
Qed.

Lemma fold_insert_sorted (h : heap) (l acc : list loc) :
  Forall (numeric h) l -> Forall (numeric h) acc ->
  StronglySorted (descending h) acc ->
  StronglySorted (descending h)
    (fold_left (fun prefix_rev element => insert_back (compare_ids h) element prefix_rev)
               l acc).
Proof.
  revert acc. induction l as [|x l IH]; intros acc Hl Hacc Hs; simpl; [exact Hs|].
  apply Forall_cons_1 in Hl as [Hx Hl].
  apply IH; [assumption| |now apply insert_back_sorted].
  rewrite (insert_back_perm (compare_ids h) x acc). now constructor.
Qed.

Lemma sorted_todos_unfold (h : heap) (ts : list loc) :
  sorted_todos h ts = sort_rev (compare_ids h) ts.
Proof. unfold sorted_todos, js_sort. apply rev_involutive. Qed.

Lemma sorted_todos_perm (h : heap) (ts : list loc) :
  Permutation (sorted_todos h ts) ts.
Proof. rewrite sorted_todos_unfold. apply sort_rev_perm. Qed.

Lemma sorted_todos_sorted (h : heap) (ts : list loc) :
  Forall (numeric h) ts -> StronglySorted (descending h) (sorted_todos h ts).
Proof.
  intros Hn. rewrite sorted_todos_unfold. unfold sort_rev.
  apply fold_insert_sorted; [assumption|constructor|constructor].
Qed.

Lemma render_rows_todos (now : Z) (h : heap) (old : list Item.t) (ts : list loc) :
  forall u, map Item.todo (fst (render_rows now h old u ts)) = ts.
Proof.
  induction ts as [|l ts IH]; intros u; simpl; [reflexivity|].
  destruct (List.find _ old) as [i|].
  - specialize (IH u). destruct (render_rows now h old u ts) as [r u'].
    simpl in *. now rewrite IH.
  - specialize (IH (S u)). destruct (render_rows now h old (S u) ts) as [r u'].
    simpl in *. now rewrite IH.
Qed.

Lemma render_draft_todo (now : Z) (h : heap) (old : option Item.t) (u : nat)
    (newTodo : option loc) :
  option_map Item.todo (fst (render_draft now h old u newTodo)) = newTodo.
Proof.
  destruct newTodo as [l|]; [|reflexivity].
  destruct old as [i|]; simpl; [|reflexivity].
  destruct (Nat.eqb_spec (Item.todo i) l) as [->|]; reflexivity.
Qed.

Lemma displayed_render (a : App.t) :
  alive a = true -> isLoading a = false ->
  displayed (render a)
  = option_list (newTodo a) ++ sorted_todos (store a) (todos a).
Proof.
  intros Ha Hl. unfold render. rewrite Ha, Hl. simpl.
  pose proof (render_draft_todo (now a) (store a) (draft a) (next_uid a) (newTodo a)) as Hd.
  destruct (render_draft _ _ _ _ _) as [d u1].
  pose proof (render_rows_todos (now a) (store a) (rows a)
                (sorted_todos (store a) (todos a)) u1) as Hr.
  destruct (render_rows _ _ _ _ _) as [rs u2].
  simpl in *. unfold displayed, instances. simpl.
  destruct d as [d|]; simpl in Hd; rewrite <- Hd; simpl; now rewrite Hr.
Qed.

Lemma store_render (a : App.t) : store (render a) = store a.
Proof.
  unfold render. destruct (alive a); [|reflexivity].
  destruct (isLoading a); [reflexivity|]. simpl.
  destruct (render_draft _ _ _ _ _) as [d u1].
  now destruct (render_rows _ _ _ _ _) as [rs u2].
Qed.

(** C1. When the list is shown and every todo has a numeric identifier, the
    rows rendered are the draft, if there is one, followed by the todos of
    the collection in descending order of the numeric value of their
    identifier. *)
Theorem display_order (a : App.t) :
  alive a = true -> isLoading a = false ->
  Forall (numeric (store a)) (todos a) ->
  exists persisted,
    displayed (render a) = option_list (newTodo a) ++ persisted /\
    Permutation persisted (todos a) /\
    StronglySorted (descending (store (render a))) persisted.
Proof.
  intros Ha Hl Hn. exists (sorted_todos (store a) (todos a)).
  rewrite store_render. split; [now apply displayed_render|].
  split; [apply sorted_todos_perm | now apply sorted_todos_sorted].
Qed.

(** "10" is shown above "9": the comparison is on numbers, not on strings;
    the draft stays on top. *)
Example display_order_numeric :
  map (id_of (store two_rows_and_draft)) (displayed (render two_rows_and_draft))
  = [None; Some "10"%string; Some "9"%string].
Proof. vm_compute. reflexivity. Qed.

Lemma display_order_witness :
  exists persisted,
    displayed (render two_rows_and_draft)
    = option_list (newTodo two_rows_and_draft) ++ persisted /\
    Permutation persisted (todos two_rows_and_draft) /\
    StronglySorted (descending (store (render two_rows_and_draft))) persisted.
Proof.
  assert (Ha : alive two_rows_and_draft = true) by (vm_compute; reflexivity).
  assert (Hl : isLoading two_rows_and_draft = false) by (vm_compute; reflexivity).
  assert (Hn : Forall (numeric (store two_rows_and_draft)) (todos two_rows_and_draft))
    by (apply numericb_Forall; vm_compute; reflexivity).
  exact (display_order two_rows_and_draft Ha Hl Hn).
Defined.

(** ** The updaters leave the other todos alone *)

Lemma updateTodo_fn_length (h : heap) (todo : loc) (ts : list loc) :
  length (updateTodo_fn h todo ts) = length ts.
Proof. unfold updateTodo_fn. apply length_map. Qed.

Lemma updateTodo_fn_lookup_other (h : heap) (todo : loc) (ts : list loc) :
  forall n g, ts !! n = Some g -> id_of h g <> id_of h todo ->
              updateTodo_fn h todo ts !! n = Some g.
Proof.
  induction ts as [|x ts IH]; intros [|n] g Hg Hne; simpl in *; try discriminate.
  - injection Hg as ->.
    destruct (strict_eq (id_of h g) (id_of h todo)) eqn:E; [|reflexivity].
    now apply strict_eq_spec in E.
  - now apply IH.
Qed.

Lemma updateTodo_fn_absent (h : heap) (todo : loc) (ts : list loc) :
  Forall (fun g => id_of h g <> id_of h todo) ts -> updateTodo_fn h todo ts = ts.
Proof.
  induction 1 as [|x ts Hx _ IH]; simpl; [reflexivity|].
  rewrite IH. destruct (strict_eq (id_of h x) (id_of h todo)) eqn:E; [|reflexivity].
  now apply strict_eq_spec in E.
Qed.

Lemma removeTodo_fn_sublist (h : heap) (todo : loc) (ts : list loc) :
  sublist (removeTodo_fn h todo ts) ts.
Proof.
  induction ts as [|x ts IH]; simpl; [constructor|].
  destruct (negb _); now constructor.
Qed.

Lemma removeTodo_fn_keeps (h : heap) (todo : loc) (ts : list loc) (g : loc) :
  In g ts -> id_of h g <> id_of h todo -> In g (removeTodo_fn h todo ts).
Proof.
  intros Hin Hne. apply filter_In. split; [assumption|].
  destruct (strict_eq (id_of h g) (id_of h todo)) eqn:E; [|reflexivity].
  now apply strict_eq_spec in E.
Qed.

Lemma removeTodo_fn_absent (h : heap) (todo : loc) (ts : list loc) :
  Forall (fun g => id_of h g <> id_of h todo) ts -> removeTodo_fn h todo ts = ts.
Proof.
  induction 1 as [|x ts Hx _ IH]; simpl; [reflexivity|].
  rewrite IH. destruct (strict_eq (id_of h x) (id_of h todo)) eqn:E; [|reflexivity].
  now apply strict_eq_spec in E.
Qed.

(** C10. The updater of [updateTodo] keeps the length of the collection and
    every member whose id differs from the argument's, at its index; the
    updater of [removeTodo] yields a subsequence of the collection that keeps
    every member whose id differs; when no member has the id of the argument,
    both return the collection as it was. *)
Theorem update_remove_frame (h : heap) (todo : loc) (ts : list loc) :
  length (updateTodo_fn h todo ts) = length ts /\
  (forall n g, ts !! n = Some g -> id_of h g <> id_of h todo ->
               updateTodo_fn h todo ts !! n = Some g) /\
  sublist (removeTodo_fn h todo ts) ts /\
  (forall g, In g ts -> id_of h g <> id_of h todo ->
             In g (removeTodo_fn h todo ts)) /\
  (Forall (fun g => id_of h g <> id_of h todo) ts ->
   updateTodo_fn h todo ts = ts /\ removeTodo_fn h todo ts = ts).
Proof.
  split; [apply updateTodo_fn_length|].
  split; [apply updateTodo_fn_lookup_other|].
  split; [apply removeTodo_fn_sublist|].
  split; [intros g; apply removeTodo_fn_keeps|].
  intros Hall. split; [now apply updateTodo_fn_absent|now apply removeTodo_fn_absent].
Qed.

(** ** Teardown *)

Lemma isMounted_render (a : App.t) : isMounted (render a) = isMounted a.
Proof. unfold render. break_match; reflexivity. Qed.

Lemma isMounted_update_item (u : nat) (f : Item.t -> Item.t) (a : App.t) :
  isMounted (update_item u f a) = isMounted a.
Proof. reflexivity. Qed.

Lemma isMounted_fire (i : Item.t) (a : App.t) : isMounted (fire i a) = isMounted a.
Proof. reflexivity. Qed.

Lemma isMounted_fires (l : list Item.t) (a : App.t) :
  isMounted (fold_left (fun s i => fire i s) l a) = isMounted a.
Proof.
  revert a. induction l as [|i l IH]; intros a; simpl; [reflexivity|].
  now rewrite IH.
Qed.

Lemma isMounted_handleSubmit (u : nat) (a : App.t) :
  isMounted (handleSubmit u a) = isMounted a.
Proof. unfold handleSubmit. break_match; reflexivity. Qed.

Lemma isMounted_respond (n : nat) (r : Response) (a : App.t) :
  isMounted a = false -> isMounted (respond n r a) = false.
Proof.
  intros H. unfold respond.
  destruct (pending a !! n) as [p|]; [|exact H].
  destruct p, r; simpl; try exact H;
    unfold loaded, created, saved, destroyed, addTodo, updateTodo, removeTodo;
    simpl; break_match; simpl; rewrite ?isMounted_render; simpl;
    rewrite ?isMounted_render; simpl; try exact H; try congruence.
Qed.

Lemma isMounted_step (a : App.t) (e : Event) :
  isMounted a = false -> isMounted (step a e) = false.
Proof.
  intros H. destruct e; simpl.
  - unfold startDraft. break_match; simpl; rewrite ?isMounted_render; simpl; congruence.
  - unfold resetApp, load_effect. break_match; rewrite ?isMounted_render; simpl; congruence.
  - break_match; [reflexivity + exact H | exact H].
  - rewrite isMounted_handleSubmit. exact H.
  - break_match; exact H.
  - unfold elapse. rewrite isMounted_fires. exact H.
  - now apply isMounted_respond.
  - break_match; [reflexivity | exact H].
  - exact H.
Qed.

Lemma isMounted_run (es : list Event) (a : App.t) :
  isMounted a = false -> isMounted (run a es) = false.
Proof.
  revert a. induction es as [|e es IH]; intros a H; simpl; [exact H|].
  apply IH. now apply isMounted_step.
Qed.

(** C5. Once the list controller is torn down, whatever happens next, the
    response to a list request that was still pending changes nothing that
    can be observed: not the collection, not the loading flag, nor any other
    piece of state. *)
Theorem stale_load_discarded (a : App.t) (es : list Event) (n : nat)
    (json : list Todo.t) :
  let s := run (unmount a) es in
  pending s !! n = Some AwaitList ->
  observable (respond n (RList json) s) = observable s /\
  todos (respond n (RList json) s) = todos s /\
  isLoading (respond n (RList json) s) = isLoading s.
Proof.
  intros s Hp.
  assert (Hm : isMounted s = false) by (apply isMounted_run; reflexivity).
  unfold respond. rewrite Hp. unfold loaded. simpl. rewrite Hm. now repeat split.
Qed.

Lemma stale_load_discarded_witness :
  let s := run (unmount (mount true 0)) [Elapse 5] in
  observable (respond 0 (RList [Todo.make (Some "1"%string) "a"%string None]) s)
  = observable s /\
  todos (respond 0 (RList [Todo.make (Some "1"%string) "a"%string None]) s) = todos s /\
  isLoading (respond 0 (RList [Todo.make (Some "1"%string) "a"%string None]) s)
  = isLoading s.
Proof.
  apply (stale_load_discarded (mount true 0) [Elapse 5] 0
           [Todo.make (Some "1"%string) "a"%string None]).
  reflexivity.
Defined.

(** ** What a render keeps *)

Lemma newTodo_render (a : App.t) : newTodo (render a) = newTodo a.
Proof. render_keeps. Qed.
Lemma isLoading_render (a : App.t) : isLoading (render a) = isLoading a.
Proof. render_keeps. Qed.
Lemma alive_render (a : App.t) : alive (render a) = alive a.
Proof. render_keeps. Qed.
Lemma log_render (a : App.t) : log (render a) = log a.
Proof. render_keeps. Qed.
Lemma pending_render (a : App.t) : pending (render a) = pending a.
Proof. render_keeps. Qed.
Lemma now_render (a : App.t) : now (render a) = now a.
Proof. render_keeps. Qed.

Lemma todos_render (a : App.t) : Permutation (todos (render a)) (todos a).
Proof.
  unfold render. break_match; try reflexivity. simpl. apply sorted_todos_perm.
Qed.

Lemma draft_render_none (a : App.t) :
  alive a = true -> newTodo a = None -> draft (render a) = None.
Proof.
  intros Ha Hn. unfold render. rewrite Ha, Hn. simpl.
  break_match; reflexivity.
Qed.

(** ** The object store *)

Lemma deref_alloc (h : heap) (o : Todo.t) : deref (h ++ [o]) (length h) = o.
Proof.
  unfold deref. rewrite lookup_app_r by lia.
  now replace (length h - length h)%nat with 0%nat by lia.
Qed.

Lemma deref_modify_same (h : heap) (l : loc) (f : Todo.t -> Todo.t) :
  (l < length h)%nat -> deref (modify h l f) l = f (deref h l).
Proof.
  intros Hl. unfold modify, deref at 1. now rewrite list_lookup_insert_eq.
Qed.

Lemma deref_modify_other (h : heap) (l l' : loc) (f : Todo.t -> Todo.t) :
  l <> l' -> deref (modify h l f) l' = deref h l'.
Proof.
  intros Hne. unfold modify, deref at 1 3. now rewrite list_lookup_insert_ne.
Qed.

Lemma length_modify (h : heap) (l : loc) (f : Todo.t -> Todo.t) :
  length (modify h l f) = length h.
Proof. unfold modify. apply length_insert. Qed.

Lemma find_item_draft (a : App.t) (i : Item.t) :
  draft a = Some i -> find_item (Item.uid i) a = Some i.
Proof.
  intros Hd. unfold find_item, instances. rewrite Hd. simpl.
  now rewrite Nat.eqb_refl.
Qed.

(** ** Committing *)

Lemma respond_last (p : list Pending) (x : Pending) :
  (p ++ [x]) !! length p = Some x /\ delete (length p) (p ++ [x]) = p.
Proof.
  split; [now apply list_lookup_middle|].
  rewrite delete_middle. apply app_nil_r.
Qed.

Lemma addTodo_spec (l : loc) (a : App.t) :
  alive a = true ->
  Permutation (todos (addTodo l a)) (l :: todos a) /\
  newTodo (addTodo l a) = None /\ draft (addTodo l a) = None /\
  store (addTodo l a) = store a /\ log (addTodo l a) = log a.
Proof.
  intros Ha. unfold addTodo. rewrite Ha.
  set (a1 := render (set_newTodo None a)).
  assert (Ha1 : alive a1 = true) by (unfold a1; now rewrite alive_render).
  assert (Hn1 : newTodo a1 = None) by (unfold a1; now rewrite newTodo_render).
  split.
  - rewrite todos_render. simpl. unfold addTodo_fn. constructor.
    unfold a1. now rewrite todos_render.
  - rewrite newTodo_render, store_render, log_render. simpl.
    repeat split; try assumption.
    + now apply draft_render_none.
    + unfold a1. now rewrite store_render.
    + unfold a1. now rewrite log_render.
Qed.

(** What [handleSubmit] does for a todo without id, and what the answer to
    its request does. *)
Lemma createTodo_commit (a : App.t) (i : Item.t) (o : Todo.t) :
  alive a = true ->
  draft a = Some i ->
  Item.didCreate i = true ->
  store a !! Item.todo i = Some o ->
  Todo.id o = None ->
  let a1 := handleSubmit (Item.uid i) a in
  log a1 = log a ++ [FetchCreate (Todo.make None (Item.text i) (Some (now a)))] /\
  pending a1 = pending a ++ [AwaitCreate (Item.uid i) true] /\
  forall json,
    let a2 := respond (length (pending a)) (RItem json) a1 in
    exists l,
      deref (store a2) l = json /\
      Permutation (todos a2) (l :: todos a) /\
      length (todos a2) = S (length (todos a)) /\
      newTodo a2 = None /\ draft a2 = None /\
      log a2 = log a1.
Proof.
  intros Ha Hd Hdc Ho Hid a1.
  assert (Hlt : (Item.todo i < length (store a))%nat) by (eapply lookup_lt_Some; eauto).
  assert (Hderef : deref (store a) (Item.todo i) = o) by (unfold deref; now rewrite Ho).
  assert (Ha1 : a1 = createTodo i a).
  { unfold a1, handleSubmit. rewrite (find_item_draft a i Hd).
    unfold id_of. now rewrite Hderef, Hid. }
  assert (Hbody : deref (store a1) (Item.todo i)
                  = Todo.make None (Item.text i) (Some (now a))).
  { rewrite Ha1. unfold createTodo. simpl.
    rewrite deref_modify_same by (now rewrite length_modify).
    rewrite deref_modify_same by assumption.
    rewrite Hderef. unfold Todo.set_createdAt, Todo.set_text. simpl. now rewrite Hid. }
  assert (Hlog : log a1 = log a ++ [FetchCreate (Todo.make None (Item.text i) (Some (now a)))]).
  { rewrite <- Hbody. rewrite Ha1. reflexivity. }
  assert (Hp : pending a1 = pending a ++ [AwaitCreate (Item.uid i) true]).
  { rewrite Ha1. unfold createTodo. simpl. now rewrite Hdc. }
  split; [exact Hlog|]. split; [exact Hp|].
  intros json a2.
  destruct (respond_last (pending a) (AwaitCreate (Item.uid i) true)) as [Hlook Hdel].
  unfold a2, respond. rewrite Hp, Hlook, Hdel. unfold created. simpl.
  set (a3 := update_item _ _ _).
  assert (Ha3 : alive a3 = true) by (unfold a3; simpl; rewrite Ha1; exact Ha).
  destruct (addTodo_spec (length (store a3)) (set_store (store a3 ++ [json]) a3) Ha3)
    as (Hperm & Hnew & Hdraft & Hstore & Hlog').
  exists (length (store a3)).
  change (store a1) with (store a3).
  assert (Htodos : todos a3 = todos a) by (unfold a3; simpl; now rewrite Ha1).
  change (todos (set_store (store a3 ++ [json]) a3)) with (todos a3) in Hperm.
  rewrite Htodos in Hperm.
  repeat split; try assumption.
  - rewrite Hstore. simpl. apply deref_alloc.
  - now rewrite Hperm.
Qed.

(** What [handleSubmit] does for a todo with an id. *)
Lemma saveTodo_commit (a : App.t) (i : Item.t) (o : Todo.t) :
  find_item (Item.uid i) a = Some i ->
  store a !! Item.todo i = Some o ->
  falsy (Todo.id o) = false ->
  let a1 := handleSubmit (Item.uid i) a in
  (Item.text i = Todo.text o -> a1 = a) /\
  (Item.text i <> Todo.text o ->
   log a1 = log a ++ [FetchSave (Todo.id o)
                        (Todo.make (Todo.id o) (Item.text i) (Todo.createdAt o))] /\
   pending a1 = pending a ++ [AwaitSave (Item.uid i) (Item.didSave i)] /\
   (Item.didSave i = true ->
    forall json,
      respond (length (pending a)) (RItem json) a1
      = let a2 := update_item (Item.uid i) (Item.setIsSaving false)
                              (set_pending (pending a) a1) in
        updateTodo (length (store a2)) (set_store (store a2 ++ [json]) a2))).
Proof.
  intros Hf Ho Hid a1.
  assert (Hlt : (Item.todo i < length (store a))%nat) by (eapply lookup_lt_Some; eauto).
  assert (Hderef : deref (store a) (Item.todo i) = o) by (unfold deref; now rewrite Ho).
  unfold a1, handleSubmit. rewrite Hf. unfold id_of, text_of. rewrite Hderef, Hid.
  split.
  - intros Heq. rewrite Heq, String.eqb_refl. reflexivity.
  - intros Hne.
    assert (E : String.eqb (Todo.text o) (Item.text i) = false).
    { apply String.eqb_neq. congruence. }
    rewrite E. simpl.
    assert (Hbody : deref (modify (store a) (Item.todo i) (Todo.set_text (Item.text i)))
                          (Item.todo i)
                    = Todo.make (Todo.id o) (Item.text i) (Todo.createdAt o)).
    { rewrite deref_modify_same by assumption. now rewrite Hderef. }
    unfold saveTodo, id_of. simpl. rewrite Hbody. simpl.
    split; [reflexivity|]. split; [reflexivity|].
    intros Hds json.
    destruct (respond_last (pending a) (AwaitSave (Item.uid i) (Item.didSave i)))
      as [Hlook Hdel].
    unfold respond. simpl. rewrite Hlook, Hdel. unfold saved. rewrite Hds.
    reflexivity.
Qed.

(** ** What a commit writes, and when *)

Lemma fires_frame (l : list Item.t) (a : App.t) :
  todos (fold_left (fun s i => fire i s) l a) = todos a /\
  store (fold_left (fun s i => fire i s) l a) = store a /\
  newTodo (fold_left (fun s i => fire i s) l a) = newTodo a.
Proof.
  revert a. induction l as [|i l IH]; intros a; simpl; [now repeat split|].
  destruct (IH (fire i a)) as (Ht & Hs & Hn). now rewrite Ht, Hs, Hn.
Qed.

Lemma deref_app_l (h : heap) (o : Todo.t) (l : loc) :
  (l < length h)%nat -> deref (h ++ [o]) l = deref h l.
Proof. intros Hl. unfold deref. now rewrite lookup_app_l. Qed.

(** C6, as the code has it. A commit is not free of effect on the collection:
    it writes the buffer into the text of the item's own todo object, which
    is the member of the collection, before any response.  What holds is the
    frame: no event other than a response changes which todos are members,
    and none changes a todo object other than the one being committed. *)
Theorem collection_frame (a : App.t) (e : Event) :
  (forall n r, e <> Respond n r) ->
  Permutation (todos (step a e)) (todos a) /\
  (forall l, (l < length (store a))%nat ->
     (forall u i, e = Commit u -> find_item u a = Some i -> l <> Item.todo i) ->
     deref (store (step a e)) l = deref (store a) l) /\
  (forall u i, e = Commit u -> enabled u a = true -> find_item u a = Some i ->
     (Item.todo i < length (store a))%nat ->
     text_of (store (step a e)) (Item.todo i) = Item.text i).
Proof.
  intros Hresp. destruct e; simpl.
  - (* ClickAdd *)
    split; [|split; [|discriminate]].
    + destruct (alive a && negb (isLoading a)); [|reflexivity].
      unfold startDraft. simpl. now rewrite todos_render.
    + intros l Hl _. destruct (alive a && negb (isLoading a)); [|reflexivity].
      unfold startDraft. simpl. rewrite store_render. simpl. now apply deref_app_l.
  - (* ClickReset *)
    split; [|split; [|discriminate]].
    + destruct (alive a); [|reflexivity]. unfold resetApp, load_effect.
      destruct (server a); [|reflexivity].
      rewrite todos_render. simpl. now rewrite todos_render.
    + intros l _ _. destruct (alive a); [|reflexivity]. unfold resetApp, load_effect.
      destruct (server a); [|reflexivity].
      rewrite store_render. simpl. now rewrite store_render.
  - (* Change *)
    split; [|split; [|discriminate]]; intros; destruct (enabled u a); reflexivity.
  - (* Commit *)
    unfold handleSubmit.
    split; [|split].
    + destruct (find_item u a) as [i|]; [|reflexivity]. break_match; reflexivity.
    + intros l Hl Hother.
      destruct (find_item u a) as [i|] eqn:Hf; [|reflexivity].
      specialize (Hother u i eq_refl Hf).
      break_match; try reflexivity; unfold createTodo, saveTodo; simpl;
        rewrite ?deref_modify_other by congruence; reflexivity.
    + intros u' i [= <-] _ Hf Hlt. rewrite Hf.
      unfold text_of, id_of.
      destruct (falsy _); [|destruct (negb _) eqn:E].
      * unfold createTodo. simpl.
        rewrite deref_modify_same by (now rewrite length_modify).
        now rewrite deref_modify_same.
      * unfold saveTodo. simpl. now rewrite deref_modify_same.
      * apply negb_false_iff, String.eqb_eq in E. exact E.
  - (* Check *)
    split; [|split; [|discriminate]]; intros; destruct (enabled u a); reflexivity.
  - (* Elapse *)
    unfold elapse. destruct (fires_frame
      (List.filter (due (now (set_now (now a + Z.max 0 ms) a)))
                   (instances (set_now (now a + Z.max 0 ms) a)))
      (set_now (now a + Z.max 0 ms) a)) as (Ht & Hs & _).
    split; [|split; [|discriminate]].
    + now rewrite Ht.
    + intros. now rewrite Hs.
  - (* Respond *)
    exfalso. now apply (Hresp n r).
  - (* Unmount *)
    split; [|split; [|discriminate]]; intros; destruct (alive a); reflexivity.
  - (* Reject *)
    split; [|split; [|discriminate]]; intros; reflexivity.
Qed.

(** The commit of [edited_row] overwrites the text of the member of the
    collection while its request is still awaiting the response. *)
Lemma commit_mutates_member :
  let a1 := step edited_row (Commit 0%nat) in
  pending a1 = [AwaitSave 0 true] /\
  collection edited_row = [Todo.make (Some "1"%string) "A"%string None] /\
  collection a1 = [Todo.make (Some "1"%string) "B"%string None] /\
  collection a1 <> collection edited_row.
Proof. vm_compute. repeat split; try reflexivity. discriminate. Qed.

Lemma collection_frame_witness :
  Permutation (todos (step edited_row (Commit 0%nat))) (todos edited_row) /\
  (forall l, (l < length (store edited_row))%nat ->
     (forall u i, Commit 0%nat = Commit u -> find_item u edited_row = Some i ->
                  l <> Item.todo i) ->
     deref (store (step edited_row (Commit 0%nat))) l = deref (store edited_row) l) /\
  (forall u i, Commit 0%nat = Commit u -> enabled u edited_row = true ->
     find_item u edited_row = Some i ->
     (Item.todo i < length (store edited_row))%nat ->
     text_of (store (step edited_row (Commit 0%nat))) (Item.todo i) = Item.text i).
Proof.
  apply (collection_frame edited_row (Commit 0%nat)). intros n r. discriminate.
Defined.

(** ** Commits while saving *)


(** Nor is a todo that has an identifier safe while its delete request is
    outstanding: with a text typed during the countdown, a commit issues an
    update request for the todo that is being deleted. *)
Example saving_by_delete_commit_updates :
  map Item.isSaving (rows saving_by_delete) = [true] /\
  log saving_by_delete = log one_row ++ [FetchDestroy (Some "1"%string)] /\
  log (step saving_by_delete (Commit 0%nat))
  = log saving_by_delete
    ++ [FetchSave (Some "1"%string) (Todo.make (Some "1"%string) "X"%string None)].
Proof. vm_compute. repeat split; reflexivity. Qed.



(** ** Reset *)

Lemma isMounted_resetApp (a : App.t) :
  server a = true -> isMounted (resetApp a) = false.
Proof.
  intros Hs. unfold resetApp, load_effect. rewrite Hs.
  now rewrite isMounted_render.
Qed.

(** After a reset the guard of the list callback stays closed: the response
    to any list request is dropped, the one the reset issued included. *)
Lemma reset_discards_reload (a : App.t) (es : list Event) (n : nat)
    (json : list Todo.t) :
  server a = true ->
  let s := run (resetApp a) es in
  pending s !! n = Some AwaitList ->
  observable (respond n (RList json) s) = observable s.
Proof.
  intros Hs s Hp.
  assert (Hm : isMounted s = false).
  { apply isMounted_run. now apply isMounted_resetApp. }
  unfold respond. rewrite Hp. unfold loaded. simpl. now rewrite Hm.
Qed.

(** C8, evaluated. The reset asks for the reseed and issues the list request
    again, but the cleanup that ran when [refresh] changed has set
    [isMounted.current] to false: the response is dropped, the collection
    keeps the todos of before the reset and the list stays loading. *)
Theorem reset_reload_dropped :
  log after_reset = [LoadDb; FetchList; ResetDb; FetchList] /\
  pending after_reset = [AwaitList] /\
  isMounted after_reset = false /\
  let s := step after_reset
             (Respond 0%nat (RList [Todo.make (Some "7"%string) "fresh"%string None])) in
  isLoading s = true /\
  collection s = [Todo.make (Some "1"%string) "A"%string None] /\
  observable s = observable after_reset.
Proof. vm_compute. repeat split; reflexivity. Qed.

(** ** The check gesture *)

(** The parts of the gesture that hold on a list that does not render in
    between: unchecking in time cancels, a full delay issues one request,
    and checking again starts the delay afresh. *)
Example check_cancelled :
  let s := run one_row [Check 0%nat true; Elapse 1249; Check 0%nat false; Elapse 5000] in
  log s = log one_row /\ collection s = collection one_row.
Proof. vm_compute. split; reflexivity. Qed.

Example check_elapsed :
  let s := run one_row [Check 0%nat true; Elapse 1250] in
  log s = log one_row ++ [FetchDestroy (Some "1"%string)] /\
  collection (step s (Respond 0%nat ROk)) = [].
Proof. vm_compute. split; reflexivity. Qed.

Example check_restarted :
  let s := run one_row [Check 0%nat true; Elapse 1000; Check 0%nat false;
                        Check 0%nat true; Elapse 1249] in
  log s = log one_row /\
  log (step s (Elapse 1)) = log one_row ++ [FetchDestroy (Some "1"%string)].
Proof. vm_compute. split; reflexivity. Qed.

(** C2, evaluated. [removeTodo] is a new function on every render of the
    list, and it is a dependency of the effect that holds the timeout.  A
    render of the list during the delay starts the delay again, and a render
    after the request was issued, the box still checked, sets a new timeout,
    which issues the delete request a second time. *)
Theorem delete_issued_twice :
  (let s := run one_row [Check 0%nat true; Elapse 1250; ClickAdd; Elapse 1250] in
   destroys (Some "1"%string) s
   = [FetchDestroy (Some "1"%string); FetchDestroy (Some "1"%string)] /\
   pending s = [AwaitDestroy 0 true 0%nat; AwaitDestroy 0 true 0%nat]) /\
  (let s := run one_row [Check 0%nat true; Elapse 1000; ClickAdd; Elapse 250] in
   destroys (Some "1"%string) s = [] /\
   destroys (Some "1"%string) (step s (Elapse 1000)) = [FetchDestroy (Some "1"%string)]).
Proof. vm_compute. repeat split; reflexivity. Qed.

(** C9, evaluated. The checkbox of a draft is rendered, transparent but
    enabled; checking it and waiting issues a delete request for a todo
    without an identifier. *)
Theorem draft_checkbox_deletes :
  option_map (Item.render (store two_rows_and_draft)) (draft two_rows_and_draft)
  = Some (Item.make_view true true false false EmptyString false false) /\
  let s := run two_rows_and_draft [Check 2%nat true; Elapse 1250] in
  log s = log two_rows_and_draft ++ [FetchDestroy None] /\
  pending s = [AwaitDestroy 2 false 2%nat].
Proof. vm_compute. repeat split; reflexivity. Qed.

(** A witness of C10: replacing and removing the todo "1" of a collection of
    two. *)
Lemma update_remove_frame_witness :
  let h := [Todo.make (Some "1"%string) "a"%string None;
            Todo.make (Some "2"%string) "b"%string None;
            Todo.make (Some "1"%string) "c"%string None] in
  updateTodo_fn h 2%nat [0%nat; 1%nat] = [2%nat; 1%nat] /\
  removeTodo_fn h 2%nat [0%nat; 1%nat] = [1%nat] /\
  updateTodo_fn h 2%nat [0%nat; 1%nat] !! 1%nat = Some 1%nat /\
  In 1%nat (removeTodo_fn h 2%nat [0%nat; 1%nat]).
Proof.
  intros h.
  destruct (update_remove_frame h 2%nat [0%nat; 1%nat]) as (_ & Hu & _ & Hr & _).
  split; [reflexivity|]. split; [reflexivity|]. split.
  - apply (Hu 1%nat 1%nat); [reflexivity|discriminate].
  - apply (Hr 1%nat); [simpl; auto|discriminate].
Defined.

(** ** Reachable states are well formed *)

Lemma render_draft_didCreate (now : Z) (h : heap) (old : option Item.t) (u : nat)
    (newTodo : option loc) :
  (forall i, old = Some i -> Item.didCreate i = true) ->
  forall d, fst (render_draft now h old u newTodo) = Some d -> Item.didCreate d = true.
Proof.
  intros Hold d. unfold render_draft.
  destruct newTodo as [l|]; [|discriminate].
  destruct old as [i|]; simpl; [|now intros [= <-]].
  specialize (Hold i eq_refl). destruct (Nat.eqb _ _); now intros [= <-].
Qed.

Lemma wf_render (a : App.t) : wf_store a -> wf (render a).
Proof.
  intros (Hdead & Hdc & Hnew & Htodos). unfold render.
  destruct (alive a) eqn:Ha; simpl.
  - destruct (isLoading a) eqn:Hl.
    + wf_split; simpl; try assumption; try discriminate; [now split|constructor].
    + pose proof (render_draft_todo (now a) (store a) (draft a) (next_uid a) (newTodo a)) as Hd.
      pose proof (render_draft_didCreate (now a) (store a) (draft a) (next_uid a)
                    (newTodo a) Hdc) as Hd'.
      destruct (render_draft _ _ _ _ _) as [d u1].
      pose proof (render_rows_todos (now a) (store a) (rows a)
                    (sorted_todos (store a) (todos a)) u1) as Hr.
      destruct (render_rows _ _ _ _ _) as [rs u2]. simpl in *.
      wf_split; simpl; try assumption.
      * congruence.
      * now rewrite sorted_todos_perm.
      * intros i ->. simpl in Hd. congruence.
      * rewrite <- Hr. apply List.Forall_forall. intros i Hi. now apply in_map.
  - destruct (Hdead eq_refl) as [Hd Hr]. wf_split; try assumption.
    + now split.
    + intros i Hi. congruence.
    + rewrite Hr. constructor.
Qed.

Lemma wf_wf_store (a : App.t) : wf a -> wf_store a.
Proof. now intros [H _]. Qed.

Lemma on_item_props (u : nat) (f : Item.t -> Item.t) (i : Item.t) :
  keeps_props f ->
  Item.didCreate (on_item u f i) = Item.didCreate i /\
  Item.todo (on_item u f i) = Item.todo i.
Proof. intros Hf. unfold on_item. destruct (Nat.eqb _ _); [apply Hf|now split]. Qed.

Lemma wf_update_item (u : nat) (f : Item.t -> Item.t) (a : App.t) :
  keeps_props f -> wf a -> wf (update_item u f a).
Proof.
  intros Hf ((Hdead & Hdc & Hnew & Htodos) & Hdraft & Hrows).
  unfold update_item. wf_split; simpl; try assumption.
  - intros H. destruct (Hdead H) as [-> ->]. now split.
  - intros i Hi. destruct (draft a) as [d|]; [|discriminate]. injection Hi as <-.
    destruct (on_item_props u f d Hf) as [-> _]. now apply Hdc.
  - intros i Hi. destruct (draft a) as [d|]; [|discriminate]. injection Hi as <-.
    destruct (on_item_props u f d Hf) as [_ ->]. now apply Hdraft.
  - clear Hdead. induction Hrows as [|r rs Hr _ IH]; simpl; [constructor|].
    constructor; [|exact IH].
    now destruct (on_item_props u f r Hf) as [_ ->].
Qed.

Lemma deref_app (h h' : heap) (l : loc) :
  (l < length h)%nat -> deref (h ++ h') l = deref h l.
Proof. intros Hl. unfold deref. now rewrite lookup_app_l. Qed.

Lemma alloc_all_spec (os : list Todo.t) :
  forall h, alloc_all h os = (h ++ os, seq (length h) (length os)).
Proof.
  induction os as [|o os IH]; intros h; simpl.
  - now rewrite app_nil_r.
  - rewrite IH. rewrite length_app. simpl.
    rewrite <- app_assoc. simpl. now rewrite Nat.add_1_r.
Qed.

Lemma id_of_modify (h : heap) (l l' : loc) (f : Todo.t -> Todo.t) :
  (forall o, Todo.id (f o) = Todo.id o) ->
  id_of (modify h l f) l' = id_of h l'.
Proof.
  intros Hf. unfold id_of. destruct (Nat.eq_dec l l') as [<-|Hne].
  - destruct (Nat.lt_ge_cases l (length h)) as [Hlt|Hge].
    + rewrite deref_modify_same by assumption. apply Hf.
    + unfold modify. now rewrite list_insert_ge.
  - now rewrite deref_modify_other.
Qed.

(** Growing the store, or writing a field other than [id], keeps a state
    well formed. *)
Lemma wf_grow (a : App.t) (h' : heap) : wf a -> wf (set_store (store a ++ h') a).
Proof.
  intros ((Hdead & Hdc & Hnew & Htodos) & Hdraft & Hrows).
  wf_split; simpl; try assumption.
  - intros l Hl. destruct (Hnew l Hl) as [Hlt Hid]. split.
    + rewrite length_app. lia.
    + unfold id_of. now rewrite deref_app.
  - eapply Forall_impl; [exact Htodos|]. intros l Hl. simpl in *.
    rewrite length_app. lia.
Qed.

Lemma wf_modify (a : App.t) (l : loc) (f : Todo.t -> Todo.t) :
  (forall o, Todo.id (f o) = Todo.id o) ->
  wf a -> wf (set_store (modify (store a) l f) a).
Proof.
  intros Hf ((Hdead & Hdc & Hnew & Htodos) & Hdraft & Hrows).
  wf_split; simpl; try assumption.
  - intros l' Hl. destruct (Hnew l' Hl) as [Hlt Hid]. split.
    + now rewrite length_modify.
    + now rewrite id_of_modify.
  - eapply Forall_impl; [exact Htodos|]. intros l' Hl. simpl in *.
    now rewrite length_modify.
Qed.

Lemma keeps_props_setIsSaving (b : bool) : keeps_props (Item.setIsSaving b).
Proof. intros i. now split. Qed.

Lemma keeps_props_setText (s : string) : keeps_props (Item.setText s).
Proof. intros i. now split. Qed.

Lemma keeps_props_set_timeout (d : option Z) : keeps_props (Item.set_timeout d).
Proof. intros i. now split. Qed.

Lemma wf_createTodo (i : Item.t) (a : App.t) : wf a -> wf (createTodo i a).
Proof.
  intros H. unfold createTodo, fetch.
  apply (wf_update_item (Item.uid i) (Item.setIsSaving true) a
           (keeps_props_setIsSaving true)) in H.
  apply (wf_modify _ (Item.todo i) (Todo.set_text (Item.text i))) in H; [|reflexivity].
  apply (wf_modify _ (Item.todo i) (Todo.set_createdAt (now a))) in H; [|reflexivity].
  exact H.
Qed.

Lemma wf_saveTodo (i : Item.t) (a : App.t) : wf a -> wf (saveTodo i a).
Proof.
  intros H. unfold saveTodo, fetch.
  apply (wf_update_item (Item.uid i) (Item.setIsSaving true) a
           (keeps_props_setIsSaving true)) in H.
  apply (wf_modify _ (Item.todo i) (Todo.set_text (Item.text i))) in H; [|reflexivity].
  exact H.
Qed.

Lemma wf_handleSubmit (u : nat) (a : App.t) : wf a -> wf (handleSubmit u a).
Proof.
  intros H. unfold handleSubmit. break_match; try assumption.
  - now apply wf_createTodo.
  - now apply wf_saveTodo.
Qed.

Lemma wf_handleCheckboxChange (u : nat) (b : bool) (a : App.t) :
  wf a -> wf (handleCheckboxChange u b a).
Proof.
  intros H. unfold handleCheckboxChange. apply wf_update_item; [|exact H].
  intros i. destruct (Bool.eqb _ _); now split.
Qed.

Lemma wf_fire (i : Item.t) (a : App.t) : wf a -> wf (fire i a).
Proof.
  intros H. unfold fire, destroyTodo, fetch.
  apply (wf_update_item (Item.uid i) (Item.set_timeout None) a
           (keeps_props_set_timeout None)) in H.
  apply (wf_update_item (Item.uid i) (Item.setIsSaving true) _
           (keeps_props_setIsSaving true)) in H.
  exact H.
Qed.

Lemma wf_elapse (ms : Z) (a : App.t) : wf a -> wf (elapse ms a).
Proof.
  intros H. unfold elapse.
  assert (H1 : wf (set_now (now a + Z.max 0 ms) a)) by exact H.
  generalize dependent (set_now (now a + Z.max 0 ms) a). intros s.
  generalize (List.filter (due (now s)) (instances s)). intros l. revert s.
  induction l as [|i l IH]; intros s Hs; simpl; [exact Hs|].
  apply IH. now apply wf_fire.
Qed.

Lemma length_store_render (a : App.t) : length (store (render a)) = length (store a).
Proof. now rewrite store_render. Qed.

Lemma wf_startDraft (a : App.t) : wf a -> wf (startDraft a).
Proof.
  intros ((Hdead & Hdc & Hnew & Htodos) & _). unfold startDraft. simpl.
  apply wf_render. repeat split; simpl; try assumption; try (now apply Hdead).
  - injection H as <-. rewrite length_app. simpl. lia.
  - injection H as <-. unfold id_of. now rewrite deref_alloc.
  - eapply Forall_impl; [exact Htodos|]. intros l Hl. simpl in *.
    rewrite length_app. lia.
Qed.

Lemma wf_resetApp (a : App.t) : wf a -> wf (resetApp a).
Proof.
  intros H. unfold resetApp, load_effect, load_cleanup, fetch.
  destruct (server a); [|exact H].
  apply wf_render. apply wf_wf_store.
  assert (H1 : wf (render (set_refresh (refresh a + 1) (set_log (log a ++ [ResetDb]) a)))).
  { apply wf_render. apply wf_wf_store. exact H. }
  exact H1.
Qed.

Lemma wf_set_todos (ts : list loc) (a : App.t) :
  wf a -> Forall (fun l => (l < length (store a))%nat) ts ->
  wf (render (set_todos ts a)).
Proof.
  intros ((Hdead & Hdc & Hnew & _) & _) Hts. apply wf_render.
  repeat split; simpl; try assumption; try (now apply Hdead); now apply Hnew.
Qed.

Lemma wf_addTodo (l : loc) (a : App.t) :
  wf a -> (l < length (store a))%nat -> wf (addTodo l a).
Proof.
  intros H Hl. unfold addTodo. destruct (alive a); [|exact H].
  assert (H1 : wf (render (set_newTodo None a))).
  { destruct H as ((Hdead & Hdc & Hnew & Htodos) & _). apply wf_render.
    repeat split; simpl; try assumption; try (now apply Hdead); discriminate. }
  apply wf_set_todos; [exact H1|].
  destruct H1 as ((_ & _ & _ & Htodos) & _).
  rewrite store_render in *. simpl in *. now constructor.
Qed.

Lemma wf_updateTodo (l : loc) (a : App.t) :
  wf a -> (l < length (store a))%nat -> wf (updateTodo l a).
Proof.
  intros H Hl. unfold updateTodo. destruct (alive a); [|exact H].
  apply wf_set_todos; [exact H|].
  destruct H as ((_ & _ & _ & Htodos) & _). unfold updateTodo_fn.
  induction Htodos as [|x ts Hx _ IH]; simpl; constructor; [|exact IH].
  now destruct (strict_eq _ _).
Qed.

Lemma wf_removeTodo (l : loc) (a : App.t) : wf a -> wf (removeTodo l a).
Proof.
  intros H. unfold removeTodo. destruct (alive a); [|exact H].
  apply wf_set_todos; [exact H|].
  destruct H as ((_ & _ & _ & Htodos) & _). unfold removeTodo_fn.
  induction Htodos as [|x ts Hx _ IH]; simpl; [constructor|].
  destruct (negb _); [now constructor|exact IH].
Qed.

Lemma wf_loaded (json : list Todo.t) (a : App.t) : wf a -> wf (loaded json a).
Proof.
  intros H. unfold loaded. destruct (isMounted a); [|exact H].
  rewrite alloc_all_spec.
  apply (wf_grow a json) in H.
  assert (H1 : wf (set_isLoading false (set_store (store a ++ json) a))) by exact H.
  apply (wf_set_todos (seq (length (store a)) (length json))) in H1.
  - exact H1.
  - simpl. apply List.Forall_forall. intros l Hl. apply in_seq in Hl.
    rewrite length_app. lia.
Qed.

Lemma wf_respond (n : nat) (r : Response) (a : App.t) : wf a -> wf (respond n r a).
Proof.
  intros H. unfold respond. destruct (pending a !! n) as [p|]; [|exact H].
  assert (H0 : wf (set_pending (delete n (pending a)) a)) by exact H.
  generalize dependent (set_pending (delete n (pending a)) a). intros s Hs.
  destruct p as [|u dc|u ds|u dd l]; destruct r; try exact H.
  - now apply wf_loaded.
  - unfold created. apply (wf_update_item u (Item.setIsSaving false) s
                             (keeps_props_setIsSaving false)) in Hs.
    destruct dc; [|exact Hs]. cbv beta iota zeta delta [alloc].
    apply wf_addTodo; [now apply wf_grow|].
    cbn [store set_store]. rewrite length_app. simpl. lia.
  - unfold saved. apply (wf_update_item u (Item.setIsSaving false) s
                           (keeps_props_setIsSaving false)) in Hs.
    destruct ds; [|exact Hs]. cbv beta iota zeta delta [alloc].
    apply wf_updateTodo; [now apply wf_grow|].
    cbn [store set_store]. rewrite length_app. simpl. lia.
  - unfold destroyed. apply (wf_update_item u (Item.setIsSaving false) s
                               (keeps_props_setIsSaving false)) in Hs.
    destruct dd; [now apply wf_removeTodo|exact Hs].
  - unfold destroyed. apply (wf_update_item u (Item.setIsSaving false) s
                               (keeps_props_setIsSaving false)) in Hs.
    destruct dd; [now apply wf_removeTodo|exact Hs].
  - unfold destroyed. apply (wf_update_item u (Item.setIsSaving false) s
                               (keeps_props_setIsSaving false)) in Hs.
    destruct dd; [now apply wf_removeTodo|exact Hs].
Qed.

Lemma wf_unmount (a : App.t) : wf a -> wf (unmount a).
Proof.
  intros ((Hdead & Hdc & Hnew & Htodos) & _). unfold unmount, load_cleanup.
  wf_split; simpl; try assumption; try discriminate; [now split|constructor].
Qed.

Lemma wf_step (a : App.t) (e : Event) : wf a -> wf (step a e).
Proof.
  intros H. destruct e; simpl.
  - destruct (alive a && negb (isLoading a)); [now apply wf_startDraft|exact H].
  - destruct (alive a); [now apply wf_resetApp|exact H].
  - destruct (enabled u a); [|exact H].
    now apply wf_update_item; [apply keeps_props_setText|].
  - now apply wf_handleSubmit.
  - destruct (enabled u a); [now apply wf_handleCheckboxChange|exact H].
  - now apply wf_elapse.
  - now apply wf_respond.
  - destruct (alive a); [now apply wf_unmount|exact H].
  - exact H.
Qed.

Lemma wf_run (es : list Event) (a : App.t) : wf a -> wf (run a es).
Proof.
  revert a. induction es as [|e es IH]; intros a H; simpl; [exact H|].
  apply IH. now apply wf_step.
Qed.

Lemma wf_mount (server : bool) (t0 : Z) : wf (mount server t0).
Proof.
  unfold mount, load_effect, fetch. apply wf_render, wf_wf_store.
  assert (H : wf (render (App.make server [] false [] None 0 true true None [] 0%nat t0
                                   [] [LoadDb]))).
  { apply wf_render. repeat split; simpl; try discriminate. constructor. }
  exact H.
Qed.

Lemma reachable_wf (a : App.t) : reachable a -> wf a.
Proof. intros (server & t0 & es & ->). apply wf_run, wf_mount. Qed.

(** ** The two commits, on the states the application can be in *)

(** C3. Committing a draft, whatever its buffer, issues one create request
    that carries the buffer and the time of the commit; when the response
    arrives the confirmed todo joins the collection, which gains exactly that
    member, and the draft slot is cleared. *)
Theorem draft_commit_creates (a : App.t) (i : Item.t) :
  reachable a -> draft a = Some i ->
  let a1 := handleSubmit (Item.uid i) a in
  id_of (store a) (Item.todo i) = None /\
  log a1 = log a ++ [FetchCreate (Todo.make None (Item.text i) (Some (now a)))] /\
  pending a1 = pending a ++ [AwaitCreate (Item.uid i) true] /\
  forall json,
    let a2 := respond (length (pending a)) (RItem json) a1 in
    exists l,
      deref (store a2) l = json /\
      Permutation (todos a2) (l :: todos a) /\
      length (todos a2) = S (length (todos a)) /\
      newTodo a2 = None /\ draft a2 = None /\
      log a2 = log a1.
Proof.
  intros Hr Hd a1.
  destruct (reachable_wf a Hr) as ((Hdead & Hdc & Hnew & _) & Hdraft & _).
  destruct (Hnew _ (Hdraft i Hd)) as [Hlt Hid].
  destruct (lookup_lt_is_Some_2 (store a) (Item.todo i) Hlt) as [o Ho].
  assert (Ha : alive a = true).
  { destruct (alive a); [reflexivity|]. destruct (Hdead eq_refl). congruence. }
  split; [exact Hid|].
  apply (createTodo_commit a i o Ha Hd (Hdc i Hd) Ho).
  assert (Hderef : deref (store a) (Item.todo i) = o) by (unfold deref; now rewrite Ho).
  unfold id_of in Hid. congruence.
Qed.

Lemma draft_commit_creates_witness :
  let a := typed_draft in
  let i := Item.make 2 None true false false true 2%nat "C"%string false false None in
  let a1 := handleSubmit (Item.uid i) a in
  id_of (store a) (Item.todo i) = None /\
  log a1 = log a ++ [FetchCreate (Todo.make None (Item.text i) (Some (now a)))] /\
  pending a1 = pending a ++ [AwaitCreate (Item.uid i) true] /\
  forall json,
    let a2 := respond (length (pending a)) (RItem json) a1 in
    exists l,
      deref (store a2) l = json /\
      Permutation (todos a2) (l :: todos a) /\
      length (todos a2) = S (length (todos a)) /\
      newTodo a2 = None /\ draft a2 = None /\
      log a2 = log a1.
Proof.
  intros a i. apply (draft_commit_creates a i); [|reflexivity].
  exists true, 0,
    [Respond 0%nat (RList [Todo.make (Some "9"%string) "nine"%string None;
                           Todo.make (Some "10"%string) "ten"%string None]);
     ClickAdd; Change 2%nat "C"%string].
  vm_compute. reflexivity.
Defined.

(** C4. A commit on a todo that has an identifier does nothing at all when
    the buffer equals the text of the todo, and issues one update request for
    that identifier, carrying the buffer, when it differs; the response is
    handed to [updateTodo]. *)
Theorem persisted_commit (a : App.t) (u : nat) (i : Item.t) :
  find_item u a = Some i ->
  falsy (id_of (store a) (Item.todo i)) = false ->
  let a1 := handleSubmit u a in
  let o := deref (store a) (Item.todo i) in
  (Item.text i = Todo.text o -> a1 = a) /\
  (Item.text i <> Todo.text o ->
   log a1 = log a ++ [FetchSave (Todo.id o)
                        (Todo.make (Todo.id o) (Item.text i) (Todo.createdAt o))] /\
   pending a1 = pending a ++ [AwaitSave u (Item.didSave i)] /\
   (Item.didSave i = true ->
    forall json,
      respond (length (pending a)) (RItem json) a1
      = let a2 := update_item u (Item.setIsSaving false)
                              (set_pending (pending a) a1) in
        updateTodo (length (store a2)) (set_store (store a2 ++ [json]) a2))).
Proof.
  intros Hf Hid a1 o.
  assert (Hu : Item.uid i = u).
  { unfold find_item in Hf. apply find_some in Hf as [_ Hf]. now apply Nat.eqb_eq. }
  assert (Ho : store a !! Item.todo i = Some o).
  { unfold o, deref. unfold id_of, deref in Hid.
    destruct (store a !! Item.todo i); [reflexivity|discriminate]. }
  subst u. now apply (saveTodo_commit a i o).
Qed.

Lemma persisted_commit_witness :
  let a := edited_row in
  let i := Item.make 0 (Some "1"%string) false true true false 0%nat "B"%string
                     false false None in
  let a1 := handleSubmit 0 a in
  let o := deref (store a) (Item.todo i) in
  (Item.text i = Todo.text o -> a1 = a) /\
  (Item.text i <> Todo.text o ->
   log a1 = log a ++ [FetchSave (Todo.id o)
                        (Todo.make (Todo.id o) (Item.text i) (Todo.createdAt o))] /\
   pending a1 = pending a ++ [AwaitSave 0 (Item.didSave i)] /\
   (Item.didSave i = true ->
    forall json,
      respond (length (pending a)) (RItem json) a1
      = let a2 := update_item 0 (Item.setIsSaving false)
                              (set_pending (pending a) a1) in
        updateTodo (length (store a2)) (set_store (store a2 ++ [json]) a2))).
Proof.
  intros a i. apply (persisted_commit a 0%nat i); reflexivity.
Defined.

(** * Further properties of the components *)

(** ** Identifiers as numerals *)

Lemma digit_byte (c : ascii) :
  48 <= byte c <= 57 -> digit_of 10 c = Some (byte c - 48).
Proof.
  intros H. unfold digit_of.
  replace (48 <=? byte c) with true by (symmetry; apply Z.leb_le; lia).
  replace (byte c <=? 57) with true by (symmetry; apply Z.leb_le; lia).
  simpl. now replace (byte c - 48 <? 10) with true by (symmetry; apply Z.ltb_lt; lia).
Qed.

Lemma skip_white_digit (c : ascii) (r : string) :
  48 <= byte c <= 57 -> skip_white (String c r) = String c r.
Proof.
  intros H.
  assert (H1 : white1 c = false).
  { unfold white1.
    replace (byte c <=? 13) with false by (symmetry; apply Z.leb_gt; lia).
    replace (byte c =? 32) with false by (symmetry; apply Z.eqb_neq; lia).
    now rewrite andb_false_r. }
  assert (H2 : forall d, white2 c d = false).
  { intros d. unfold white2.
    now replace (byte c =? 194) with false by (symmetry; apply Z.eqb_neq; lia). }
  assert (H3 : forall d e, white3 c d e = false).
  { intros d e. unfold white3.
    replace (byte c =? 225) with false by (symmetry; apply Z.eqb_neq; lia).
    replace (byte c =? 226) with false by (symmetry; apply Z.eqb_neq; lia).
    replace (byte c =? 227) with false by (symmetry; apply Z.eqb_neq; lia).
    now replace (byte c =? 239) with false by (symmetry; apply Z.eqb_neq; lia). }
  simpl. rewrite H1. destruct r as [|d [|e r]]; rewrite ?H2, ?H3; reflexivity.
Qed.

Lemma non_decimal_digits (s : string) : all_digits s -> non_decimal s = None.
Proof.
  destruct s as [|z [|x r]]; try reflexivity. intros (_ & Hx & _).
  unfold non_decimal.
  replace (byte x =? 120) with false by (symmetry; apply Z.eqb_neq; lia).
  replace (byte x =? 88) with false by (symmetry; apply Z.eqb_neq; lia).
  replace (byte x =? 111) with false by (symmetry; apply Z.eqb_neq; lia).
  replace (byte x =? 79) with false by (symmetry; apply Z.eqb_neq; lia).
  replace (byte x =? 98) with false by (symmetry; apply Z.eqb_neq; lia).
  replace (byte x =? 66) with false by (symmetry; apply Z.eqb_neq; lia).
  simpl. now rewrite andb_false_r.
Qed.

Lemma starts_with_digit (c : ascii) (r : string) :
  48 <= byte c <= 57 -> starts_with "Infinity"%string (String c r) = None.
Proof.
  intros H. unfold starts_with.
  change (String.prefix "Infinity" (String c r))
    with (match ascii_dec "I" c with
          | left _ => String.prefix "nfinity" r
          | right _ => false
          end).
  destruct (ascii_dec "I" c) as [<-|_]; [|reflexivity].
  vm_compute in H. destruct H as [_ H]. now contradiction H.
Qed.

Lemma take_digits_all (s : string) :
  all_digits s ->
  forall acc count,
    take_digits 10 acc count s
    = (fst (fst (take_digits 10 acc count s)), (count + String.length s)%nat, EmptyString).
Proof.
  induction s as [|c r IH]; simpl; intros H acc count.
  - now rewrite Nat.add_0_r.
  - destruct H as [Hc Hr]. rewrite (digit_byte c Hc).
    rewrite (IH Hr) at 1. now rewrite Nat.add_succ_r.
Qed.

Lemma to_double_integer (p : Z) :
  0 <= p <= 2 ^ 53 -> to_double p 1 = Num (p * 2 ^ 1074).
Proof.
  intros Hp.
  assert (Hhalf : forall m q, 0 < q -> half_even (m * q) q = m).
  { intros m q Hq. unfold half_even.
    rewrite Z.div_mul, Z.mod_mul by lia. simpl. now destruct q. }
  destruct (Z.eq_dec p 0) as [->|Hnz]; [vm_compute; reflexivity|].
  destruct (Z.eq_dec p (2 ^ 53)) as [->|Hmax]; [vm_compute; reflexivity|].
  unfold to_double. cbv zeta. rewrite Z.div_1_r.
  assert (Hlog : Z.log2 (p * 2 ^ 1074) = 1074 + Z.log2 p)
    by (apply Z.log2_mul_pow2; lia).
  assert (Hl : 0 <= Z.log2 p < 53).
  { split; [apply Z.log2_nonneg|]. apply Z.log2_lt_pow2; lia. }
  assert (Hbig : 2 ^ 53 <= p * 2 ^ 1074).
  { assert (2 ^ 53 <= 2 ^ 1074) by (apply Z.pow_le_mono_r; lia). nia. }
  replace (p * 2 ^ 1074 <? 2 ^ 53) with false by (symmetry; apply Z.ltb_ge; exact Hbig).
  cbv iota.
  rewrite Hlog. set (k := 1074 + Z.log2 p - 52).
  assert (Hk : 0 <= k <= 1074) by (unfold k; lia).
  assert (Hsplit : p * 2 ^ 1074 = p * 2 ^ (1074 - k) * (1 * 2 ^ k)).
  { rewrite Z.mul_1_l, <- Z.mul_assoc, <- Z.pow_add_r by lia. do 2 f_equal. lia. }
  assert (Hh : half_even (p * 2 ^ 1074) (1 * 2 ^ k) = p * 2 ^ (1074 - k)).
  { rewrite Hsplit. apply Hhalf.
    assert (0 < 2 ^ k) by (apply Z.pow_pos_nonneg; lia). lia. }
  rewrite !Hh.
  replace (p * 2 ^ (1074 - k) * 2 ^ k) with (p * 2 ^ 1074)
    by (rewrite Hsplit; ring).
  assert (Hlt : p * 2 ^ 1074 < 2 ^ 2098).
  { apply Z.lt_trans with (2 ^ 53 * 2 ^ 1074); [|vm_compute; reflexivity].
    apply Z.mul_lt_mono_pos_r; [apply Z.pow_pos_nonneg; lia|lia]. }
  now replace (p * 2 ^ 1074 <? 2 ^ 2098) with true by (symmetry; apply Z.ltb_lt; exact Hlt).
Qed.

Lemma numeral_digits (d : Decimal.uint) : all_digits (NilEmpty.string_of_uint d).
Proof. induction d; simpl; try exact I; (split; [vm_compute; split; discriminate|exact IHd]). Qed.

Lemma take_digits_numeral (d : Decimal.uint) :
  forall (k : nat) (count : nat),
    fst (fst (take_digits 10 (Z.of_nat k) count (NilEmpty.string_of_uint d)))
    = Z.of_nat (Nat.of_uint_acc d k).
Proof.
  induction d; intros k count; simpl; try reflexivity;
    unfold digit_of; simpl; rewrite <- (IHd _ (S count)); do 3 f_equal;
    match goal with
    | |- context [byte ?c] => let v := eval vm_compute in (byte c) in change (byte c) with v
    end;
    rewrite ?Nat2Z.inj_succ, Nat.tail_mul_spec, Nat2Z.inj_mul; simpl Z.of_nat; lia.
Qed.

Lemma numeral_head (n : nat) :
  exists c r, numeral n = String c r /\ 48 <= byte c <= 57.
Proof.
  unfold numeral. pose proof (numeral_digits (Nat.to_uint n)) as H.
  destruct (NilEmpty.string_of_uint (Nat.to_uint n)) as [|c r] eqn:E.
  - exfalso. pose proof (DecimalNat.Unsigned.to_of (Nat.to_uint n)) as Hu.
    rewrite DecimalNat.Unsigned.of_to in Hu.
    destruct (Nat.to_uint n); try discriminate E. discriminate Hu.
  - exists c, r. split; [reflexivity|exact (proj1 H)].
Qed.

Lemma StringToNumber_numeral (n : nat) :
  StringToNumber (numeral n) = to_double (Z.of_nat n) 1.
Proof.
  destruct (numeral_head n) as (c & r & E & Hc).
  pose proof (numeral_digits (Nat.to_uint n)) as Hd. fold (numeral n) in Hd.
  pose proof (take_digits_all (numeral n) Hd 0 0%nat) as Ht.
  pose proof (take_digits_numeral (Nat.to_uint n) 0 0) as Hv.
  fold (numeral n) in Hv. change (Z.of_nat 0) with 0 in Hv.
  change (Nat.of_uint_acc (Nat.to_uint n) 0) with (Nat.of_uint (Nat.to_uint n)) in Hv.
  rewrite DecimalNat.Unsigned.of_to in Hv. rewrite Hv in Ht.
  unfold StringToNumber.
  rewrite E, (skip_white_digit c r Hc), <- E, (non_decimal_digits _ Hd).
  rewrite E. unfold decimal.
  replace (byte c =? 45) with false by (symmetry; apply Z.eqb_neq; lia).
  replace (byte c =? 43) with false by (symmetry; apply Z.eqb_neq; lia).
  unfold unsigned_decimal. rewrite (starts_with_digit c r Hc), <- E, Ht.
  rewrite E. cbn [String.length Nat.add exponent skip_white].
  change (0 - Z.of_nat 0) with 0. change (10 ^ 0) with 1. change (0 <=? 0) with true.
  cbv iota. now rewrite Z.mul_1_r.
Qed.



(** X2. On two todos whose ids are numerals up to 2^53 the comparator of the
    render function compares the numbers: "10" is above "9". *)
Theorem compare_ids_numeral (h : heap) (a b : loc) (m n : nat) :
  Z.of_nat m <= 2 ^ 53 -> Z.of_nat n <= 2 ^ 53 ->
  id_of h a = Some (numeral m) -> id_of h b = Some (numeral n) ->
  compare_ids h a b = if (n <? m)%nat then 1 else -1.
Proof.
  intros Hm Hn Ha Hb. unfold compare_ids, Number.
  rewrite Ha, Hb, !StringToNumber_numeral, !to_double_integer by lia.
  unfold js_gt.
  assert (Hp : 0 < 2 ^ 1074) by (apply Z.pow_pos_nonneg; lia).
  destruct (Nat.ltb_spec n m) as [Hlt|Hge].
  - replace (Z.of_nat n * 2 ^ 1074 <? Z.of_nat m * 2 ^ 1074) with true; [reflexivity|].
    symmetry. apply Z.ltb_lt. apply Z.mul_lt_mono_pos_r; [exact Hp|lia].
  - replace (Z.of_nat n * 2 ^ 1074 <? Z.of_nat m * 2 ^ 1074) with false; [reflexivity|].
    symmetry. apply Z.ltb_ge. apply Z.mul_le_mono_nonneg_r; lia.
Qed.

Lemma compare_ids_numeral_witness :
  let h := [Todo.make (Some "10"%string) "ten"%string None;
            Todo.make (Some "9"%string) "nine"%string None] in
  compare_ids h 0%nat 1%nat = 1 /\ compare_ids h 1%nat 0%nat = -1.
Proof.
  intros h.
  assert (H10 : Z.of_nat 10 <= 2 ^ 53) by (vm_compute; discriminate).
  assert (H9 : Z.of_nat 9 <= 2 ^ 53) by (vm_compute; discriminate).
  split.
  - exact (compare_ids_numeral h 0%nat 1%nat 10 9 H10 H9 eq_refl eq_refl).
  - exact (compare_ids_numeral h 1%nat 0%nat 9 10 H9 H10 eq_refl eq_refl).
Defined.

(** X20. Above 2^53 two numerals can name the same double: neither of these
    two ids is above the other for the comparator. *)
Example compare_ids_tie :
  let h := [Todo.make (Some "9007199254740992"%string) "a"%string None;
            Todo.make (Some "9007199254740993"%string) "b"%string None] in
  num_of h 0%nat = num_of h 1%nat /\
  compare_ids h 0%nat 1%nat = -1 /\ compare_ids h 1%nat 0%nat = -1.
Proof. vm_compute. repeat split; reflexivity. Qed.

(** ** Rendering again *)

Lemma insert_back_last (h : heap) (x : loc) (r : list loc) :
  Forall (fun y => strictly_descending h y x) r ->
  insert_back (compare_ids h) x r = r ++ [x].
Proof.
  intros Hlt. induction Hlt as [|tmp rest Htmp _ IH]; simpl; [reflexivity|].
  unfold strictly_descending in Htmp.
  now rewrite compare_ids_pos, Htmp, IH.
Qed.

Lemma StronglySorted_snoc (h : heap) (acc : list loc) (x : loc) (l : list loc) :
  StronglySorted (strictly_descending h) (acc ++ x :: l) ->
  Forall (fun y => strictly_descending h y x) acc.
Proof.
  induction acc as [|y acc IH]; simpl; intros Hs; [constructor|].
  apply StronglySorted_inv in Hs as [Hs Hall]. constructor; [|now apply IH].
  rewrite List.Forall_forall in Hall. apply Hall, in_elt.
Qed.

Lemma fold_insert_sorted_id (h : heap) (l : list loc) :
  forall acc,
    StronglySorted (strictly_descending h) (acc ++ l) ->
    fold_left (fun prefix_rev element => insert_back (compare_ids h) element prefix_rev)
              l acc
    = acc ++ l.
Proof.
  induction l as [|x l IH]; intros acc Hs; simpl; [now rewrite app_nil_r|].
  rewrite insert_back_last by now apply StronglySorted_snoc with l.
  rewrite IH; now rewrite <- app_assoc.
Qed.

Lemma sorted_todos_sorted_id (h : heap) (ts : list loc) :
  StronglySorted (strictly_descending h) ts -> sorted_todos h ts = ts.
Proof.
  intros Hs. rewrite sorted_todos_unfold. unfold sort_rev.
  now rewrite fold_insert_sorted_id.
Qed.

Lemma js_le_neq_gt (a b : JsNumber) : js_le a b -> a <> b -> js_gt b a = true.
Proof.
  destruct a as [|x|[|]], b as [|y|[|]]; simpl; try tauto; try congruence.
  intros H Hne. apply Z.ltb_lt.
  assert (x <> y) by congruence. lia.
Qed.

Lemma descending_strict (h : heap) (ts : list loc) :
  StronglySorted (descending h) ts -> NoDup (map (num_of h) ts) ->
  StronglySorted (strictly_descending h) ts.
Proof.
  induction 1 as [|x ts Hs IH Hall]; intros Hnd; [constructor|].
  simpl in Hnd. apply NoDup_cons in Hnd as [Hnotin Hnd].
  constructor; [now apply IH|].
  rewrite List.Forall_forall in *. intros y Hy. specialize (Hall y Hy).
  unfold descending in Hall. unfold strictly_descending.
  apply js_le_neq_gt; [exact Hall|].
  intros E. apply Hnotin. rewrite <- E. apply list_elem_of_In. now apply in_map.
Qed.

(** X3. When the ids of the todos are numeric and no two of them are the
    same double, a second render leaves the order of [todos], which the
    first one sorted in place, as it is: rendering again does not move a
    row. *)
Theorem render_order_stable (a : App.t) :
  Forall (numeric (store a)) (todos a) ->
  NoDup (map (num_of (store a)) (todos a)) ->
  todos (render (render a)) = todos (render a).
Proof.
  intros Hn Hnd. unfold render at 1.
  rewrite alive_render, isLoading_render.
  destruct (alive a) eqn:Ha; simpl; [|reflexivity].
  destruct (isLoading a) eqn:Hl; [reflexivity|].
  destruct (render_draft _ _ _ _ _) as [d u1].
  destruct (render_rows _ _ _ _ _) as [rs u2]. simpl.
  rewrite store_render.
  assert (E : todos (render a) = sorted_todos (store a) (todos a)).
  { unfold render. rewrite Ha, Hl. simpl.
    destruct (render_draft _ _ _ _ _) as [d' u1'].
    now destruct (render_rows _ _ _ _ _) as [rs' u2']. }
  rewrite E. apply sorted_todos_sorted_id.
  apply descending_strict; [now apply sorted_todos_sorted|].
  assert (P : Permutation (map (num_of (store a)) (sorted_todos (store a) (todos a)))
                          (map (num_of (store a)) (todos a)))
    by apply Permutation_map, sorted_todos_perm.
  now rewrite P.
Qed.

Lemma render_order_stable_witness :
  todos (render (render two_rows_and_draft)) = todos (render two_rows_and_draft).
Proof.
  assert (Hn : Forall (numeric (store two_rows_and_draft)) (todos two_rows_and_draft))
    by (apply numericb_Forall; vm_compute; reflexivity).
  assert (Hd : NoDup (map (num_of (store two_rows_and_draft)) (todos two_rows_and_draft))).
  { vm_compute. repeat constructor; intros H;
      repeat (apply elem_of_cons in H as [H|H]; [discriminate H|]);
      now apply elem_of_nil in H. }
  exact (render_order_stable two_rows_and_draft Hn Hd).
Defined.

(** ** What is rendered is the state *)

Lemma in_sync_dead_empty (a : App.t) : in_sync a -> dead_empty a.
Proof.
  unfold in_sync, shown, dead_empty. intros H Ha. rewrite Ha in H. exact H.
Qed.

Lemma in_sync_render (s : App.t) : dead_empty s -> in_sync (render s).
Proof.
  intros Hd. unfold in_sync, shown. rewrite alive_render, isLoading_render.
  unfold render. destruct (alive s) eqn:Ha; simpl.
  - destruct (isLoading s) eqn:Hl; simpl; [now split|].
    pose proof (render_draft_todo (now s) (store s) (draft s) (next_uid s) (newTodo s)) as Hdr.
    destruct (render_draft _ _ _ _ _) as [d u1].
    pose proof (render_rows_todos (now s) (store s) (rows s)
                  (sorted_todos (store s) (todos s)) u1) as Hr.
    destruct (render_rows _ _ _ _ _) as [rs u2]. simpl in *. now split.
  - now apply Hd.
Qed.

Lemma dead_empty_render (s : App.t) : dead_empty s -> dead_empty (render s).
Proof. intros H. now apply in_sync_dead_empty, in_sync_render. Qed.

Lemma map_todo_on_item (u : nat) (f : Item.t -> Item.t) (l : list Item.t) :
  keeps_todo f -> map Item.todo (map (on_item u f) l) = map Item.todo l.
Proof.
  intros Hf. induction l as [|i l IH]; simpl; [reflexivity|].
  rewrite IH. unfold on_item. destruct (Nat.eqb _ _); [now rewrite Hf|reflexivity].
Qed.

Lemma in_sync_update_item (u : nat) (f : Item.t -> Item.t) (a : App.t) :
  keeps_todo f -> in_sync a -> in_sync (update_item u f a).
Proof.
  intros Hf. unfold in_sync, shown, update_item. simpl.
  destruct (alive a && negb (isLoading a)); intros [Hr Hd].
  - rewrite map_todo_on_item by assumption. split; [assumption|].
    destruct (draft a) as [d|]; simpl in *; [|assumption].
    unfold on_item. destruct (Nat.eqb _ _); [now rewrite Hf|assumption].
  - now rewrite Hr, Hd.
Qed.

Lemma keeps_todo_setIsSaving (b : bool) : keeps_todo (Item.setIsSaving b).
Proof. now intros i. Qed.

Lemma keeps_todo_set_timeout (d : option Z) : keeps_todo (Item.set_timeout d).
Proof. now intros i. Qed.

Lemma in_sync_handleSubmit (u : nat) (a : App.t) : in_sync a -> in_sync (handleSubmit u a).
Proof.
  intros H. unfold handleSubmit. destruct (find_item u a) as [i|]; [|exact H].
  pose proof (in_sync_update_item (Item.uid i) _ a (keeps_todo_setIsSaving true) H) as H1.
  destruct (falsy _); [exact H1|]. destruct (negb _); [exact H1|exact H].
Qed.

Lemma in_sync_fire (i : Item.t) (a : App.t) : in_sync a -> in_sync (fire i a).
Proof.
  intros H.
  apply (in_sync_update_item (Item.uid i) _ a (keeps_todo_set_timeout None)) in H.
  apply (in_sync_update_item (Item.uid i) _ _ (keeps_todo_setIsSaving true)) in H.
  exact H.
Qed.

Lemma in_sync_fires (l : list Item.t) :
  forall a, in_sync a -> in_sync (fold_left (fun s i => fire i s) l a).
Proof.
  induction l as [|i l IH]; intros a H; simpl; [exact H|].
  now apply IH, in_sync_fire.
Qed.

Lemma in_sync_set_todos (ts : list loc) (a : App.t) :
  in_sync a -> in_sync (render (set_todos ts a)).
Proof. intros H. apply in_sync_render. exact (in_sync_dead_empty a H). Qed.

Lemma in_sync_addTodo (l : loc) (a : App.t) : in_sync a -> in_sync (addTodo l a).
Proof.
  intros H. unfold addTodo. destruct (alive a); [|exact H].
  apply in_sync_set_todos, in_sync_render. exact (in_sync_dead_empty a H).
Qed.

Lemma in_sync_respond (n : nat) (r : Response) (a : App.t) :
  in_sync a -> in_sync (respond n r a).
Proof.
  intros H. unfold respond. destruct (pending a !! n) as [p|]; [|exact H].
  assert (H0 : in_sync (set_pending (delete n (pending a)) a)) by exact H.
  generalize dependent (set_pending (delete n (pending a)) a). intros s Hs.
  assert (Hu : forall u b, in_sync (update_item u (Item.setIsSaving b) s)).
  { intros u b. now apply in_sync_update_item; [apply keeps_todo_setIsSaving|]. }
  destruct p as [|u dc|u ds|u dd l]; destruct r; try exact H.
  - unfold loaded. destruct (isMounted s); [|exact Hs].
    destruct (alloc_all (store s) json) as [h ls].
    apply in_sync_render. exact (in_sync_dead_empty s Hs).
  - unfold created. destruct dc; [|apply Hu].
    cbv beta iota zeta delta [alloc]. apply in_sync_addTodo. exact (Hu u false).
  - unfold saved. destruct ds; [|apply Hu].
    cbv beta iota zeta delta [alloc]. unfold updateTodo.
    destruct (alive _); [|exact (Hu u false)].
    apply in_sync_render. exact (in_sync_dead_empty _ (Hu u false)).
  - unfold destroyed, removeTodo. destruct dd; [|apply Hu].
    destruct (alive _); [|exact (Hu u false)].
    apply in_sync_set_todos, Hu.
  - unfold destroyed, removeTodo. destruct dd; [|apply Hu].
    destruct (alive _); [|exact (Hu u false)].
    apply in_sync_set_todos, Hu.
  - unfold destroyed, removeTodo. destruct dd; [|apply Hu].
    destruct (alive _); [|exact (Hu u false)].
    apply in_sync_set_todos, Hu.
Qed.

Lemma in_sync_step (a : App.t) (e : Event) : in_sync a -> in_sync (step a e).
Proof.
  intros H. pose proof (in_sync_dead_empty a H) as Hd. destruct e; simpl.
  - destruct (alive a && negb (isLoading a)); [|exact H].
    unfold startDraft. simpl. apply in_sync_render. exact Hd.
  - destruct (alive a); [|exact H]. unfold resetApp, load_effect.
    destruct (server a); [|exact H].
    apply in_sync_render.
    assert (H1 : dead_empty (render (set_refresh (refresh a + 1)
                                       (set_log (log a ++ [ResetDb]) a)))).
    { apply dead_empty_render. exact Hd. }
    exact H1.
  - destruct (enabled u a); [|exact H]. now apply in_sync_update_item.
  - now apply in_sync_handleSubmit.
  - destruct (enabled u a); [|exact H]. apply in_sync_update_item; [|exact H].
    intros i. now destruct (Bool.eqb _ _).
  - unfold elapse. apply in_sync_fires. exact H.
  - now apply in_sync_respond.
  - destruct (alive a); [|exact H]. unfold in_sync, shown. simpl. now split.
  - exact H.
Qed.

Lemma in_sync_run (es : list Event) :
  forall a, in_sync a -> in_sync (run a es).
Proof.
  induction es as [|e es IH]; intros a H; simpl; [exact H|].
  now apply IH, in_sync_step.
Qed.

Lemma in_sync_mount (server : bool) (t0 : Z) : in_sync (mount server t0).
Proof.
  unfold mount, load_effect. apply in_sync_render.
  assert (H : dead_empty (render (App.make server [] false [] None 0 true true None []
                                           0%nat t0 [] [LoadDb]))).
  { apply dead_empty_render. intros H. discriminate H. }
  exact H.
Qed.

(** X4. In every state the application can reach, what is rendered is what
    the state holds: when the list is shown there is one row per todo, in
    the order of [todos] and below the draft of [newTodo], and the header
    counts the rows; when it is loading or unmounted there is no row and no
    draft. *)
Theorem rendered_is_state (a : App.t) :
  reachable a ->
  (shown a = true ->
   displayed a = option_list (newTodo a) ++ todos a /\
   header a = match length (rows a) with O => AllDone | n => Left n end) /\
  (shown a = false -> displayed a = []).
Proof.
  intros (server & t0 & es & ->).
  pose proof (in_sync_run es _ (in_sync_mount server t0)) as H.
  set (s := run (mount server t0) es) in *. unfold in_sync in H.
  split; intros Hs; rewrite Hs in H; destruct H as [Hr Hd].
  - split.
    + unfold displayed, instances. rewrite <- Hr, <- Hd.
      now destruct (draft s).
    + unfold header, shown in *. apply andb_prop in Hs as [_ Hl].
      apply negb_true_iff in Hl. rewrite Hl, <- Hr. now rewrite length_map.
  - unfold displayed, instances. now rewrite Hr, Hd.
Qed.

Lemma rendered_is_state_witness :
  (shown two_rows_and_draft = true ->
   displayed two_rows_and_draft
   = option_list (newTodo two_rows_and_draft) ++ todos two_rows_and_draft /\
   header two_rows_and_draft
   = match length (rows two_rows_and_draft) with O => AllDone | n => Left n end) /\
  (shown two_rows_and_draft = false -> displayed two_rows_and_draft = []).
Proof.
  apply rendered_is_state.
  exists true, 0,
    [Respond 0%nat (RList [Todo.make (Some "9"%string) "nine"%string None;
                           Todo.make (Some "10"%string) "ten"%string None]);
     ClickAdd].
  reflexivity.
Defined.

(** ** Which events reach the network *)

Lemma log_addTodo (l : loc) (a : App.t) : log (addTodo l a) = log a.
Proof.
  unfold addTodo. destruct (alive a); [|reflexivity].
  cbv zeta. rewrite log_render. simpl. now rewrite log_render.
Qed.

Lemma log_updateTodo (l : loc) (a : App.t) : log (updateTodo l a) = log a.
Proof. unfold updateTodo. destruct (alive a); [|reflexivity]. now rewrite log_render. Qed.

Lemma log_removeTodo (l : loc) (a : App.t) : log (removeTodo l a) = log a.
Proof. unfold removeTodo. destruct (alive a); [|reflexivity]. now rewrite log_render. Qed.

Lemma log_respond (n : nat) (r : Response) (a : App.t) : log (respond n r a) = log a.
Proof.
  unfold respond. destruct (pending a !! n) as [p|]; [|reflexivity].
  destruct p as [|u dc|u ds|u dd l]; destruct r; try reflexivity.
  - unfold loaded. simpl. destruct (isMounted a); [|reflexivity].
    destruct (alloc_all _ _) as [h ls]. now rewrite log_render.
  - unfold created. destruct dc; [|reflexivity].
    cbv beta iota zeta delta [alloc]. now rewrite log_addTodo.
  - unfold saved. destruct ds; [|reflexivity].
    cbv beta iota zeta delta [alloc]. now rewrite log_updateTodo.
  - unfold destroyed. destruct dd; [|reflexivity]. now rewrite log_removeTodo.
  - unfold destroyed. destruct dd; [|reflexivity]. now rewrite log_removeTodo.
  - unfold destroyed. destruct dd; [|reflexivity]. now rewrite log_removeTodo.
Qed.

(** X5. Only a commit, the passage of time and "Reset app" reach the
    network: a response, a click on "+", typing, checking a box and
    unmounting issue no request and call neither [loadDb] nor [resetDb]. *)
Theorem quiet_events (a : App.t) (e : Event) :
  issues e = false -> log (step a e) = log a.
Proof.
  destruct e; simpl; try discriminate; intros _.
  - destruct (alive a && negb (isLoading a)); [|reflexivity].
    unfold startDraft. simpl. now rewrite log_render.
  - now destruct (enabled u a).
  - now destruct (enabled u a).
  - apply log_respond.
  - now destruct (alive a).
  - reflexivity.
Qed.

Lemma quiet_events_witness :
  log (step saving_row (Respond 0%nat (RItem (Todo.make (Some "1"%string) "B"%string None))))
  = log saving_row.
Proof. apply quiet_events. reflexivity. Defined.

(** ** Without a server *)

Lemma server_render (a : App.t) : server (render a) = server a.
Proof. render_keeps. Qed.

Lemma server_respond (n : nat) (r : Response) (a : App.t) :
  server (respond n r a) = server a.
Proof.
  unfold respond. destruct (pending a !! n) as [p|]; [|reflexivity].
  destruct p as [|u dc|u ds|u dd l]; destruct r; try reflexivity;
    unfold loaded, created, saved, destroyed, addTodo, updateTodo, removeTodo;
    cbv beta iota zeta delta [alloc]; simpl;
    repeat match goal with
           | |- context [if ?b then _ else _] => destruct b
           | |- context [let '(_, _) := ?p in _] => destruct p
           end;
    rewrite ?server_render; simpl; rewrite ?server_render; reflexivity.
Qed.

Lemma fires_server_reloads (l : list Item.t) :
  forall a, server (fold_left (fun s i => fire i s) l a) = server a /\
            reloads (fold_left (fun s i => fire i s) l a) = reloads a.
Proof.
  induction l as [|i l IH]; intros a; simpl; [now split|].
  destruct (IH (fire i a)) as [Hs Hr]. rewrite Hs, Hr. split; [reflexivity|].
  unfold reloads, fire, destroyTodo, fetch. simpl.
  rewrite List.filter_app. simpl. apply app_nil_r.
Qed.

Lemma handleSubmit_server_reloads (u : nat) (a : App.t) :
  server (handleSubmit u a) = server a /\ reloads (handleSubmit u a) = reloads a.
Proof.
  unfold handleSubmit. destruct (find_item u a) as [i|]; [|now split].
  destruct (falsy _); [|destruct (negb _); [|now split]];
    (split; [reflexivity|]); unfold reloads, createTodo, saveTodo, fetch; simpl;
    rewrite List.filter_app; simpl; apply app_nil_r.
Qed.

Lemma no_server_step (a : App.t) (e : Event) :
  server a = false ->
  server (step a e) = false /\ reloads (step a e) = reloads a.
Proof.
  intros Hs. destruct e.
  - simpl. destruct (alive a && negb (isLoading a)); [|now split].
    unfold startDraft, reloads. simpl. now rewrite server_render, log_render.
  - simpl. destruct (alive a); [|now split]. unfold resetApp. rewrite Hs. now split.
  - simpl. destruct (enabled u a); now split.
  - simpl. destruct (handleSubmit_server_reloads u a) as [-> ->]. now split.
  - simpl. destruct (enabled u a); now split.
  - simpl. unfold elapse.
    destruct (fires_server_reloads
                (List.filter (due (now (set_now (now a + Z.max 0 ms) a)))
                             (instances (set_now (now a + Z.max 0 ms) a)))
                (set_now (now a + Z.max 0 ms) a)) as [-> ->].
    now split.
  - simpl. unfold reloads. now rewrite server_respond, log_respond.
  - simpl. destruct (alive a); now split.
  - now split.
Qed.

(** X6. When the imported [server] is falsy, whatever the user does and
    whatever arrives, the list is requested once, on mount, and the store is
    never reseeded: "Reset app" does nothing. *)
Theorem no_server_no_reload (t0 : Z) (es : list Event) :
  reloads (run (mount false t0) es) = [FetchList].
Proof.
  assert (H : forall a, server a = false ->
                        server (run a es) = false /\ reloads (run a es) = reloads a).
  { induction es as [|e es IH]; intros a Hs; simpl; [now split|].
    destruct (no_server_step a e Hs) as [Hs' Hr].
    destruct (IH _ Hs') as [Hs'' Hr']. split; [assumption|congruence]. }
  destruct (H (mount false t0) eq_refl) as [_ ->]. reflexivity.
Qed.

(** ** After the teardown *)

Lemma unchanged_refl (s : App.t) : unchanged s s.
Proof. unfold unchanged. repeat split; auto. Qed.

Lemma unchanged_trans (s1 s2 s3 : App.t) :
  unchanged s1 s2 -> unchanged s2 s3 -> unchanged s1 s3.
Proof.
  intros (Hl & Ht & Hn & Hr & Hg & Hlen & Hd) (Hl' & Ht' & Hn' & Hr' & Hg' & Hlen' & Hd').
  unfold unchanged. repeat split; try congruence; try lia.
  intros l Hlt. rewrite Hd' by lia. now apply Hd.
Qed.

Lemma unchanged_grow (s : App.t) (o : Todo.t) : unchanged s (set_store (store s ++ [o]) s).
Proof.
  unfold unchanged. simpl. repeat split; auto.
  - rewrite length_app. lia.
  - intros l Hl. now apply deref_app_l.
Qed.

Lemma torn_down_respond (n : nat) (r : Response) (a : App.t) :
  torn_down a -> torn_down (respond n r a) /\ unchanged a (respond n r a).
Proof.
  intros (Ha & Hm & Hr & Hd). unfold respond.
  destruct (pending a !! n) as [p|]; [|split; [now repeat split|exact (unchanged_refl a)]].
  assert (Hu : forall u b,
             update_item u (Item.setIsSaving b) (set_pending (delete n (pending a)) a)
             = set_pending (delete n (pending a)) a).
  { intros u b. unfold update_item, set_rows, set_draft, set_pending. simpl.
    now rewrite Hr, Hd. }
  destruct p as [|u dc|u ds|u dd l]; destruct r;
    try (split; [now repeat split|exact (unchanged_refl a)]).
  - unfold loaded. simpl. rewrite Hm. split; [now repeat split|exact (unchanged_refl a)].
  - unfold created. rewrite Hu. destruct dc.
    + cbv beta iota zeta delta [alloc]. unfold addTodo. simpl. rewrite Ha.
      split; [now repeat split|]. exact (unchanged_grow a json).
    + split; [now repeat split|exact (unchanged_refl a)].
  - unfold saved. rewrite Hu. destruct ds.
    + cbv beta iota zeta delta [alloc]. unfold updateTodo. simpl. rewrite Ha.
      split; [now repeat split|]. exact (unchanged_grow a json).
    + split; [now repeat split|exact (unchanged_refl a)].
  - unfold destroyed. rewrite Hu. unfold removeTodo. simpl. rewrite Ha.
    destruct dd; (split; [now repeat split|exact (unchanged_refl a)]).
  - unfold destroyed. rewrite Hu. unfold removeTodo. simpl. rewrite Ha.
    destruct dd; (split; [now repeat split|exact (unchanged_refl a)]).
  - unfold destroyed. rewrite Hu. unfold removeTodo. simpl. rewrite Ha.
    destruct dd; (split; [now repeat split|exact (unchanged_refl a)]).
Qed.

Lemma torn_down_step (a : App.t) (e : Event) :
  torn_down a -> torn_down (step a e) /\ unchanged a (step a e).
Proof.
  intros H. pose proof H as (Ha & Hm & Hr & Hd).
  assert (He : forall u, enabled u a = false).
  { intros u. unfold enabled, find_item, instances. now rewrite Hd, Hr. }
  assert (Hf : forall u, find_item u a = None).
  { intros u. unfold find_item, instances. now rewrite Hd, Hr. }
  destruct e; simpl; unfold handleSubmit; rewrite ?Ha, ?He, ?Hf; simpl;
    try (split; [exact H|apply unchanged_refl]).
  - unfold elapse, instances. simpl. rewrite Hd, Hr. simpl.
    split; [now repeat split|exact (unchanged_refl a)].
  - now apply torn_down_respond.
  - split; [exact H|]. unfold unchanged. simpl. now repeat split.
Qed.

(** X7. Once [TodoApp] is unmounted nothing happens any more: whatever
    events and responses follow, those of create, update and delete requests
    included, no row is rendered, no request is issued, and the state and
    the todo objects stay as they were. *)
Theorem unmounted_is_inert (a : App.t) (es : list Event) :
  unchanged (unmount a) (run (unmount a) es) /\
  rows (run (unmount a) es) = [] /\ draft (run (unmount a) es) = None.
Proof.
  assert (H : forall s, torn_down s -> torn_down (run s es) /\ unchanged s (run s es)).
  { induction es as [|e es IH]; intros s Hs; simpl.
    - split; [exact Hs|apply unchanged_refl].
    - destruct (torn_down_step s e Hs) as [Ht Hu].
      destruct (IH _ Ht) as [Ht' Hu']. split; [exact Ht'|].
      now apply unchanged_trans with (step s e). }
  assert (Ht : torn_down (unmount a)) by now repeat split.
  destruct (H (unmount a) Ht) as [(_ & _ & Hr & Hd) Hu].
  split; [exact Hu|now split].
Qed.

(** ** Objects keep their id *)

Lemma extends_refl (h : heap) : extends h h.
Proof. split; [lia|auto]. Qed.

Lemma extends_trans (h1 h2 h3 : heap) : extends h1 h2 -> extends h2 h3 -> extends h1 h3.
Proof.
  intros [Hl Hi] [Hl' Hi']. split; [lia|].
  intros l Hlt. rewrite Hi' by lia. now apply Hi.
Qed.

Lemma extends_app (h h' : heap) : extends h (h ++ h').
Proof.
  split; [rewrite length_app; lia|].
  intros l Hl. unfold id_of. now rewrite deref_app.
Qed.

Lemma extends_modify (h : heap) (l : loc) (f : Todo.t -> Todo.t) :
  (forall o, Todo.id (f o) = Todo.id o) -> extends h (modify h l f).
Proof.
  intros Hf. split; [now rewrite length_modify|].
  intros l' _. now apply id_of_modify.
Qed.

Lemma store_addTodo (l : loc) (a : App.t) : store (addTodo l a) = store a.
Proof.
  unfold addTodo. destruct (alive a); [|reflexivity].
  cbv zeta. rewrite store_render. simpl. now rewrite store_render.
Qed.

Lemma store_updateTodo (l : loc) (a : App.t) : store (updateTodo l a) = store a.
Proof. unfold updateTodo. destruct (alive a); [|reflexivity]. now rewrite store_render. Qed.

Lemma store_removeTodo (l : loc) (a : App.t) : store (removeTodo l a) = store a.
Proof. unfold removeTodo. destruct (alive a); [|reflexivity]. now rewrite store_render. Qed.

Lemma extends_respond (n : nat) (r : Response) (a : App.t) :
  extends (store a) (store (respond n r a)).
Proof.
  unfold respond. destruct (pending a !! n) as [p|]; [|apply extends_refl].
  destruct p as [|u dc|u ds|u dd l]; destruct r; try apply extends_refl.
  - unfold loaded. simpl. destruct (isMounted a); [|apply extends_refl].
    rewrite alloc_all_spec, store_render. simpl. apply extends_app.
  - unfold created. destruct dc; [|apply extends_refl].
    cbv beta iota zeta delta [alloc]. rewrite store_addTodo. simpl. apply extends_app.
  - unfold saved. destruct ds; [|apply extends_refl].
    cbv beta iota zeta delta [alloc]. rewrite store_updateTodo. simpl. apply extends_app.
  - unfold destroyed. destruct dd; [|apply extends_refl].
    rewrite store_removeTodo. apply extends_refl.
  - unfold destroyed. destruct dd; [|apply extends_refl].
    rewrite store_removeTodo. apply extends_refl.
  - unfold destroyed. destruct dd; [|apply extends_refl].
    rewrite store_removeTodo. apply extends_refl.
Qed.

Lemma extends_step (a : App.t) (e : Event) : extends (store a) (store (step a e)).
Proof.
  destruct e; simpl.
  - destruct (alive a && negb (isLoading a)); [|apply extends_refl].
    unfold startDraft. simpl. rewrite store_render. simpl. apply extends_app.
  - destruct (alive a); [|apply extends_refl]. unfold resetApp, load_effect.
    destruct (server a); [|apply extends_refl].
    rewrite store_render. simpl. rewrite store_render. apply extends_refl.
  - destruct (enabled u a); apply extends_refl.
  - unfold handleSubmit.
    destruct (find_item u a) as [i|]; [|apply extends_refl].
    destruct (falsy _); [|destruct (negb _); [|apply extends_refl]].
    + unfold createTodo. simpl.
      eapply extends_trans; apply extends_modify; reflexivity.
    + unfold saveTodo. simpl. apply extends_modify. reflexivity.
  - destruct (enabled u a); apply extends_refl.
  - unfold elapse.
    destruct (fires_frame
                (List.filter (due (now (set_now (now a + Z.max 0 ms) a)))
                             (instances (set_now (now a + Z.max 0 ms) a)))
                (set_now (now a + Z.max 0 ms) a)) as (_ & -> & _).
    apply extends_refl.
  - apply extends_respond.
  - destruct (alive a); apply extends_refl.
  - apply extends_refl.
Qed.

(** X8. No event ever changes the id of a todo object or drops an object:
    after any run every object that existed is still there, with the id it
    had.  The handlers write only [text] and [createdAt]. *)
Theorem ids_never_change (a : App.t) (es : list Event) :
  extends (store a) (store (run a es)).
Proof.
  revert a. induction es as [|e es IH]; intros a; simpl; [apply extends_refl|].
  eapply extends_trans; [apply extends_step|apply IH].
Qed.

(** ** The timeout of the check gesture *)

Lemma timer_ok_effect (now : Z) (i : Item.t) : timer_ok now (Item.effect now i).
Proof.
  unfold timer_ok, Item.effect. simpl. destruct (Item.isChecked i); [|discriminate].
  intros t [= <-]. split; [reflexivity|lia].
Qed.

Lemma timer_ok_later (now now' : Z) (i : Item.t) :
  now <= now' -> timer_ok now i -> timer_ok now' i.
Proof. intros Hle H t Ht. destruct (H t Ht) as [Hc Hb]. split; [assumption|lia]. Qed.

Lemma render_rows_timer_ok (now : Z) (h : heap) (old : list Item.t) (ts : list loc) :
  forall u, Forall (timer_ok now) (fst (render_rows now h old u ts)).
Proof.
  induction ts as [|l ts IH]; intros u; simpl; [constructor|].
  destruct (List.find _ old) as [i|].
  - specialize (IH u). destruct (render_rows now h old u ts) as [r u'].
    simpl in *. constructor; [apply timer_ok_effect|exact IH].
  - specialize (IH (S u)). destruct (render_rows now h old (S u) ts) as [r u'].
    simpl in *. constructor; [|exact IH]. intros t Ht. discriminate Ht.
Qed.

Lemma render_draft_timer_ok (now : Z) (h : heap) (old : option Item.t) (u : nat)
    (newTodo : option loc) :
  (forall d, old = Some d -> timer_ok now d) ->
  forall d, fst (render_draft now h old u newTodo) = Some d -> timer_ok now d.
Proof.
  intros Hold d. unfold render_draft. destruct newTodo as [l|]; [|discriminate].
  destruct old as [i|]; simpl.
  - destruct (Nat.eqb _ _); intros [= <-]; [now apply Hold|apply timer_ok_effect].
  - intros [= <-] t Ht. discriminate Ht.
Qed.

Lemma timers_ok_render (a : App.t) : timers_ok a -> timers_ok (render a).
Proof.
  intros [Hd Hr]. unfold timers_ok. rewrite now_render. unfold render.
  destruct (alive a); simpl; [|now split].
  destruct (isLoading a); simpl; [split; [discriminate|constructor]|].
  pose proof (render_draft_timer_ok (now a) (store a) (draft a) (next_uid a)
                (newTodo a) Hd) as Hd'.
  destruct (render_draft _ _ _ _ _) as [d u1].
  pose proof (render_rows_timer_ok (now a) (store a) (rows a)
                (sorted_todos (store a) (todos a)) u1) as Hr'.
  destruct (render_rows _ _ _ _ _) as [rs u2]. simpl in *. now split.
Qed.

Lemma timers_ok_update_item (u : nat) (f : Item.t -> Item.t) (a : App.t) :
  (forall i, timer_ok (now a) i -> timer_ok (now a) (f i)) ->
  timers_ok a -> timers_ok (update_item u f a).
Proof.
  intros Hf [Hd Hr]. unfold timers_ok, update_item. simpl. split.
  - intros d Hd'. destruct (draft a) as [d0|]; [|discriminate].
    injection Hd' as <-. specialize (Hd d0 eq_refl).
    unfold on_item. destruct (Nat.eqb _ _); [now apply Hf|assumption].
  - induction Hr as [|i l Hi _ IH]; simpl; constructor; try assumption.
    unfold on_item. destruct (Nat.eqb _ _); [now apply Hf|assumption].
Qed.

Lemma timers_ok_setIsSaving (u : nat) (b : bool) (a : App.t) :
  timers_ok a -> timers_ok (update_item u (Item.setIsSaving b) a).
Proof. apply timers_ok_update_item. intros i H. exact H. Qed.

Lemma timers_ok_fire (i : Item.t) (a : App.t) : timers_ok a -> timers_ok (fire i a).
Proof.
  intros H. unfold fire, destroyTodo, fetch.
  assert (H1 : timers_ok (update_item (Item.uid i) (Item.set_timeout None) a)).
  { apply timers_ok_update_item; [|exact H]. intros j _ t Ht. discriminate Ht. }
  apply (timers_ok_setIsSaving (Item.uid i) true) in H1. exact H1.
Qed.

Lemma timers_ok_fires (l : list Item.t) :
  forall a, timers_ok a -> timers_ok (fold_left (fun s i => fire i s) l a).
Proof.
  induction l as [|i l IH]; intros a H; simpl; [exact H|].
  now apply IH, timers_ok_fire.
Qed.

Lemma timers_ok_respond (n : nat) (r : Response) (a : App.t) :
  timers_ok a -> timers_ok (respond n r a).
Proof.
  intros H. unfold respond. destruct (pending a !! n) as [p|]; [|exact H].
  assert (H0 : timers_ok (set_pending (delete n (pending a)) a)) by exact H.
  generalize dependent (set_pending (delete n (pending a)) a). intros s Hs.
  pose proof (fun u b => timers_ok_setIsSaving u b s Hs) as Hu.
  assert (Hrm : forall u l, timers_ok (removeTodo l (update_item u (Item.setIsSaving false) s))).
  { intros u l. unfold removeTodo. destruct (alive _); [|apply Hu].
    apply timers_ok_render. exact (Hu u false). }
  destruct p as [|u dc|u ds|u dd l]; destruct r; try exact H.
  - unfold loaded. destruct (isMounted s); [|exact Hs].
    destruct (alloc_all (store s) json) as [h ls].
    apply timers_ok_render. exact Hs.
  - unfold created. destruct dc; [|apply Hu].
    cbv beta iota zeta delta [alloc]. unfold addTodo.
    destruct (alive _); [|exact (Hu u false)].
    cbv zeta. apply timers_ok_render.
    assert (H1 : timers_ok (render (set_newTodo None
                (set_store (store (update_item u (Item.setIsSaving false) s) ++ [json])
                           (update_item u (Item.setIsSaving false) s))))).
    { apply timers_ok_render. exact (Hu u false). }
    exact H1.
  - unfold saved. destruct ds; [|apply Hu].
    cbv beta iota zeta delta [alloc]. unfold updateTodo.
    destruct (alive _); [|exact (Hu u false)].
    apply timers_ok_render. exact (Hu u false).
  - unfold destroyed. destruct dd; [apply Hrm|apply Hu].
  - unfold destroyed. destruct dd; [apply Hrm|apply Hu].
  - unfold destroyed. destruct dd; [apply Hrm|apply Hu].
Qed.

Lemma timers_ok_step (a : App.t) (e : Event) : timers_ok a -> timers_ok (step a e).
Proof.
  intros H. destruct e; simpl.
  - destruct (alive a && negb (isLoading a)); [|exact H].
    unfold startDraft. simpl. apply timers_ok_render. exact H.
  - destruct (alive a); [|exact H]. unfold resetApp, load_effect.
    destruct (server a); [|exact H]. apply timers_ok_render.
    assert (H1 : timers_ok (render (set_refresh (refresh a + 1)
                                      (set_log (log a ++ [ResetDb]) a)))).
    { apply timers_ok_render. exact H. }
    exact H1.
  - destruct (enabled u a); [|exact H].
    apply timers_ok_update_item; [|exact H]. intros i Hi. exact Hi.
  - unfold handleSubmit.
    destruct (find_item u a) as [i|]; [|exact H].
    pose proof (timers_ok_setIsSaving (Item.uid i) true a H) as H1.
    destruct (falsy _); [exact H1|]. destruct (negb _); [exact H1|exact H].
  - destruct (enabled u a); [|exact H]. unfold handleCheckboxChange.
    apply timers_ok_update_item; [|exact H].
    intros i Hi. destruct (Bool.eqb _ _); [exact Hi|apply timer_ok_effect].
  - unfold elapse. apply timers_ok_fires.
    destruct H as [Hd Hr]. split; simpl.
    + intros d Hd'. apply timer_ok_later with (now a); [lia|now apply Hd].
    + eapply Forall_impl; [exact Hr|].
      intros i Hi. apply timer_ok_later with (now a); [lia|exact Hi].
  - now apply timers_ok_respond.
  - destruct (alive a); [|exact H]. split; simpl; [discriminate|constructor].
  - exact H.
Qed.

Lemma timers_ok_run (es : list Event) :
  forall a, timers_ok a -> timers_ok (run a es).
Proof.
  induction es as [|e es IH]; intros a H; simpl; [exact H|].
  now apply IH, timers_ok_step.
Qed.

Lemma timers_ok_mount (server : bool) (t0 : Z) : timers_ok (mount server t0).
Proof.
  unfold mount, load_effect. apply timers_ok_render.
  assert (H1 : timers_ok (render (App.make server [] false [] None 0 true true None []
                                           0%nat t0 [] [LoadDb]))).
  { apply timers_ok_render. split; simpl; [discriminate|constructor]. }
  exact H1.
Qed.

(** X9. In every state the application can reach, an instance has a
    timeout pending only if its box is checked, and the timeout is due no
    later than 1250 ms from now: the passage of time never deletes a todo
    whose box is unchecked. *)
Theorem timeout_only_when_checked (a : App.t) (i : Item.t) (t : Z) :
  reachable a -> In i (instances a) -> Item.timeout i = Some t ->
  Item.isChecked i = true /\ t <= now a + 1250.
Proof.
  intros (server & t0 & es & ->) Hin Ht.
  destruct (timers_ok_run es _ (timers_ok_mount server t0)) as [Hd Hr].
  unfold instances in Hin.
  destruct (draft (run (mount server t0) es)) as [d|] eqn:Ed.
  - destruct Hin as [<-|Hin]; [exact (Hd d eq_refl t Ht)|].
    rewrite List.Forall_forall in Hr. exact (Hr i Hin t Ht).
  - rewrite List.Forall_forall in Hr. exact (Hr i Hin t Ht).
Qed.

Lemma timeout_only_when_checked_witness :
  let i := Item.make 0 (Some "1"%string) false true true false 0%nat "A"%string
                     false true (Some 1250) in
  Item.isChecked i = true /\ 1250 <= now checked_row + 1250.
Proof.
  intros i. apply (timeout_only_when_checked checked_row i 1250).
  - exists true, 0,
      [Respond 0%nat (RList [Todo.make (Some "1"%string) "A"%string None]);
       Check 0%nat true].
    vm_compute. reflexivity.
  - vm_compute. left. reflexivity.
  - reflexivity.
Defined.

Lemma fires_pending_log (l : list Item.t) :
  forall a,
    pending (fold_left (fun s i => fire i s) l a) = pending a ++ map await_destroy l /\
    log (fold_left (fun s i => fire i s) l a)
    = log a ++ map (fun i => FetchDestroy (id_of (store a) (Item.todo i))) l.
Proof.
  induction l as [|i l IH]; intros a; simpl; [now rewrite !app_nil_r|].
  destruct (IH (fire i a)) as [-> ->]. simpl.
  now rewrite <- !app_assoc.
Qed.

Lemma instances_update_item (u : nat) (f : Item.t -> Item.t) (a : App.t) :
  instances (update_item u f a) = map (on_item u f) (instances a).
Proof. unfold instances, update_item. simpl. now destruct (draft a). Qed.

(** X10. Unchecking cancels: in every state the application can reach,
    once [handleCheckboxChange] has run with [false] for an instance, the
    passage of time, however long, registers no delete for that instance. *)
Theorem uncheck_cancels (a : App.t) (u : nat) (ms : Z) :
  reachable a ->
  List.filter (destroy_of u) (pending (elapse ms (handleCheckboxChange u false a)))
  = List.filter (destroy_of u) (pending a).
Proof.
  intros (server & t0 & es & ->).
  pose proof (timers_ok_run es _ (timers_ok_mount server t0)) as Hok.
  set (a := run (mount server t0) es) in *.
  assert (Hall : Forall (timer_ok (now a)) (instances a)).
  { destruct Hok as [Hd Hr]. unfold instances.
    destruct (draft a) as [d|]; [constructor; [now apply Hd|exact Hr]|exact Hr]. }
  unfold elapse.
  set (a1 := set_now _ _).
  destruct (fires_pending_log (List.filter (due (now a1)) (instances a1)) a1) as [-> _].
  rewrite List.filter_app.
  replace (pending a1) with (pending a) by reflexivity.
  replace (instances a1)
    with (map (on_item u (fun i => if Bool.eqb (Item.isChecked i) false then i
                                   else Item.effect (now a) (Item.setIsChecked false i)))
              (instances a))
    by (symmetry; apply (instances_update_item u _ a)).
  assert (E : List.filter (destroy_of u)
                (map await_destroy
                   (List.filter (due (now a1))
                      (map (on_item u (fun i => if Bool.eqb (Item.isChecked i) false then i
                                                else Item.effect (now a)
                                                       (Item.setIsChecked false i)))
                           (instances a)))) = []).
  { clear -Hall. induction Hall as [|j l Hj _ IH]; simpl; [reflexivity|].
    destruct (due _ _) eqn:Hdue; [|exact IH]. simpl.
    destruct (Nat.eqb (Item.uid (on_item u _ j)) u) eqn:Hu; [|exact IH].
    exfalso. unfold on_item in *. destruct (Nat.eqb (Item.uid j) u) eqn:Hj'.
    - unfold due in Hdue. destruct (Item.isChecked j) eqn:Hc; simpl in Hdue.
      + discriminate Hdue.
      + destruct (Item.timeout j) as [t|] eqn:Ht; [|discriminate Hdue].
        destruct (Hj t Ht) as [Hc' _]. congruence.
    - congruence. }
  rewrite E. apply app_nil_r.
Qed.

Lemma uncheck_cancels_witness :
  List.filter (destroy_of 0)
              (pending (elapse 5000 (handleCheckboxChange 0 false checked_row)))
  = List.filter (destroy_of 0) (pending checked_row).
Proof.
  apply uncheck_cancels.
  exists true, 0,
    [Respond 0%nat (RList [Todo.make (Some "1"%string) "A"%string None]);
     Check 0%nat true].
  vm_compute. reflexivity.
Defined.

(** X11. Checking starts the countdown: once [handleCheckboxChange] has run
    with [true] for an unchecked instance, the passage of 1250 ms or more
    issues the delete request for the id of its todo and registers the
    callback that reports to [didDestroy]. *)
Theorem check_then_delete (a : App.t) (u : nat) (i : Item.t) (ms : Z) :
  find_item u a = Some i -> Item.isChecked i = false -> 1250 <= ms ->
  let s := elapse ms (handleCheckboxChange u true a) in
  In (FetchDestroy (id_of (store a) (Item.todo i))) (log s) /\
  In (await_destroy i) (pending s).
Proof.
  intros Hf Hc Hms s. unfold find_item in Hf. apply find_some in Hf as [Hin Hu].
  set (f := fun j => if Bool.eqb (Item.isChecked j) true then j
                     else Item.effect (now a) (Item.setIsChecked true j)).
  set (a0 := handleCheckboxChange u true a).
  set (a1 := set_now (now a0 + Z.max 0 ms) a0).
  assert (Hin1 : In (f i) (List.filter (due (now a1)) (instances a1))).
  { apply filter_In. split.
    - replace (instances a1) with (map (on_item u f) (instances a))
        by (symmetry; apply (instances_update_item u f a)).
      replace (f i) with (on_item u f i) by (unfold on_item; now rewrite Hu).
      now apply in_map.
    - unfold f, due. rewrite Hc. simpl. apply Z.leb_le. unfold Item.delay. lia. }
  unfold s, elapse. fold a0. fold a1.
  destruct (fires_pending_log (List.filter (due (now a1)) (instances a1)) a1) as [-> ->].
  split; apply in_or_app; right.
  - replace (id_of (store a) (Item.todo i)) with (id_of (store a1) (Item.todo (f i)))
      by (unfold f; now rewrite Hc).
    exact (in_map (fun j => FetchDestroy (id_of (store a1) (Item.todo j))) _ _ Hin1).
  - replace (await_destroy i) with (await_destroy (f i)) by (unfold f; now rewrite Hc).
    now apply in_map.
Qed.

Lemma check_then_delete_witness :
  let i := Item.make 0 (Some "1"%string) false true true false 0%nat "A"%string
                     false false None in
  let s := elapse 1250 (handleCheckboxChange 0 true one_row) in
  In (FetchDestroy (id_of (store one_row) (Item.todo i))) (log s) /\
  In (await_destroy i) (pending s).
Proof.
  intros i. apply (check_then_delete one_row 0%nat i 1250); [reflexivity|reflexivity|lia].
Defined.

(** ** What the responses do to the collection *)

Lemma Forall_todos_render (P : loc -> Prop) (a : App.t) :
  Forall P (todos a) -> Forall P (todos (render a)).
Proof.
  rewrite !List.Forall_forall. intros H x Hx. apply H.
  eapply Permutation_in; [apply todos_render|exact Hx].
Qed.

Lemma removeTodo_fn_gone (h : heap) (todo : loc) (ts : list loc) :
  Forall (fun g => id_of h g <> id_of h todo) (removeTodo_fn h todo ts).
Proof.
  apply List.Forall_forall. intros g Hg. apply filter_In in Hg as [_ Hg].
  intros E. rewrite E, strict_eq_refl in Hg. discriminate Hg.
Qed.

(** X12. When the response to a delete request arrives at a mounted list,
    no todo with the id of the deleted one is left in the collection, and
    its length has not grown. *)
Theorem delete_response_removes (a : App.t) (n u : nat) (l : loc) (r : Response) :
  pending a !! n = Some (AwaitDestroy u true l) -> alive a = true ->
  let s := step a (Respond n r) in
  store s = store a /\
  Forall (fun g => id_of (store a) g <> id_of (store a) l) (todos s) /\
  (length (todos s) <= length (todos a))%nat.
Proof.
  intros Hp Ha. simpl. unfold respond. rewrite Hp.
  destruct r; unfold destroyed, removeTodo; simpl; rewrite Ha;
    rewrite store_render; simpl; (split; [reflexivity|]); split;
    try (apply Forall_todos_render; simpl; apply removeTodo_fn_gone);
    rewrite todos_render; simpl; unfold removeTodo_fn; apply List.filter_length_le.
Qed.

Lemma delete_response_removes_witness :
  let a := step checked_row (Elapse 1250) in
  let s := step a (Respond 0%nat ROk) in
  store s = store a /\
  Forall (fun g => id_of (store a) g <> id_of (store a) 0%nat) (todos s) /\
  (length (todos s) <= length (todos a))%nat.
Proof.
  intros a. apply (delete_response_removes a 0%nat 0%nat 0%nat ROk); reflexivity.
Defined.

Lemma updateTodo_fn_only (h : heap) (todo : loc) (ts : list loc) :
  Forall (fun g => id_of h g = id_of h todo -> g = todo) (updateTodo_fn h todo ts).
Proof.
  unfold updateTodo_fn. induction ts as [|x ts IH]; simpl; constructor; [|exact IH].
  destruct (strict_eq (id_of h x) (id_of h todo)) eqn:E; [reflexivity|].
  intros E'. rewrite E', strict_eq_refl in E. discriminate E.
Qed.

(** X13. When the response to an update request arrives at a mounted list,
    the collection keeps its length and the confirmed todo is the only
    member that has its id: the todo that was saved has been replaced. *)
Theorem save_response_replaces (a : App.t) (n u : nat) (json : Todo.t) :
  pending a !! n = Some (AwaitSave u true) -> alive a = true ->
  let s := step a (Respond n (RItem json)) in
  let l := length (store a) in
  deref (store s) l = json /\
  length (todos s) = length (todos a) /\
  Forall (fun g => id_of (store s) g = Todo.id json -> g = l) (todos s).
Proof.
  intros Hp Ha. simpl. unfold respond. rewrite Hp. unfold saved.
  cbv beta iota zeta delta [alloc]. unfold updateTodo. simpl. rewrite Ha.
  rewrite store_render. simpl. split; [apply deref_alloc|]. split.
  - rewrite todos_render. simpl. apply updateTodo_fn_length.
  - apply Forall_todos_render. simpl.
    pose proof (updateTodo_fn_only (store a ++ [json]) (length (store a)) (todos a)) as H.
    unfold id_of at 2 in H. now rewrite deref_alloc in H.
Qed.

Lemma save_response_replaces_witness :
  let json := Todo.make (Some "1"%string) "B"%string None in
  let s := step saving_row (Respond 0%nat (RItem json)) in
  let l := length (store saving_row) in
  deref (store s) l = json /\
  length (todos s) = length (todos saving_row) /\
  Forall (fun g => id_of (store s) g = Todo.id json -> g = l) (todos s).
Proof.
  intros json.
  apply (save_response_replaces saving_row 0%nat 0%nat json); reflexivity.
Defined.

Lemma collection_alloc_all (h : heap) (json : list Todo.t) :
  map (deref (h ++ json)) (seq (length h) (length json)) = json.
Proof.
  revert h. induction json as [|o json IH]; intros h; simpl; [reflexivity|].
  f_equal.
  - unfold deref. rewrite lookup_app_r by lia.
    now replace (length h - length h)%nat with 0%nat by lia.
  - specialize (IH (h ++ [o])). rewrite length_app in IH. simpl in IH.
    rewrite Nat.add_1_r, <- app_assoc in IH. exact IH.
Qed.

(** X14. When the response to the list request arrives and the guard
    [isMounted.current] is open, the collection becomes the todos of the
    response, all of them and no other, and the list stops loading. *)
Theorem list_response_replaces (a : App.t) (n : nat) (json : list Todo.t) :
  pending a !! n = Some AwaitList -> isMounted a = true ->
  let s := step a (Respond n (RList json)) in
  isLoading s = false /\ Permutation (collection s) json /\
  pending s = delete n (pending a).
Proof.
  intros Hp Hm. simpl. unfold respond. rewrite Hp. unfold loaded. simpl. rewrite Hm.
  rewrite alloc_all_spec. rewrite isLoading_render, pending_render. simpl.
  split; [reflexivity|]. split; [|reflexivity].
  unfold collection. rewrite store_render. simpl.
  etransitivity; [apply Permutation_map, todos_render|].
  simpl. now rewrite collection_alloc_all.
Qed.

Lemma list_response_replaces_witness :
  let json := [Todo.make (Some "2"%string) "B"%string None;
               Todo.make (Some "1"%string) "A"%string None] in
  let s := step (mount true 0) (Respond 0%nat (RList json)) in
  isLoading s = false /\ Permutation (collection s) json /\
  pending s = delete 0%nat (pending (mount true 0)).
Proof.
  intros json. apply (list_response_replaces (mount true 0) 0%nat json); reflexivity.
Defined.

(** ** Editing and committing *)

Lemma find_item_update_item (u : nat) (f : Item.t -> Item.t) (a : App.t) :
  (forall i, Item.uid (f i) = Item.uid i) ->
  find_item u (update_item u f a) = option_map f (find_item u a).
Proof.
  intros Hf. unfold find_item. rewrite instances_update_item.
  induction (instances a) as [|j l IH]; simpl; [reflexivity|].
  unfold on_item at 1 2. destruct (Nat.eqb (Item.uid j) u) eqn:E.
  - now rewrite Hf, E.
  - rewrite E. exact IH.
Qed.

Lemma find_item_uid (u : nat) (a : App.t) (i : Item.t) :
  find_item u a = Some i -> Item.uid i = u.
Proof.
  unfold find_item. intros H. apply find_some in H as [_ H]. now apply Nat.eqb_eq.
Qed.

Lemma truthy_allocated (h : heap) (l : loc) :
  falsy (id_of h l) = false -> (l < length h)%nat.
Proof.
  unfold id_of, deref. intros H. apply lookup_lt_is_Some.
  destruct (h !! l); [eauto|discriminate H].
Qed.

(** X15. For a todo that has an identifier a second commit right after a
    first changes nothing: [saveTodo] has written the buffer into the todo,
    so the test [todo.text !== text] fails and no second request is issued. *)
Theorem second_commit_is_noop (a : App.t) (u : nat) (i : Item.t) :
  find_item u a = Some i ->
  falsy (id_of (store a) (Item.todo i)) = false ->
  handleSubmit u (handleSubmit u a) = handleSubmit u a.
Proof.
  intros Hf Hid. pose proof (find_item_uid u a i Hf) as Hu.
  pose proof (truthy_allocated _ _ Hid) as Hlt.
  assert (E1 : handleSubmit u a
               = if negb (String.eqb (text_of (store a) (Item.todo i)) (Item.text i))
                 then saveTodo i a else a).
  { unfold handleSubmit. now rewrite Hf, Hid. }
  destruct (negb _) eqn:Hne; rewrite E1; [|exact E1].
  unfold handleSubmit at 1.
  assert (Hf' : find_item u (saveTodo i a) = Some (Item.setIsSaving true i)).
  { change (find_item u (saveTodo i a))
      with (find_item u (update_item (Item.uid i) (Item.setIsSaving true) a)).
    rewrite Hu, find_item_update_item by reflexivity. now rewrite Hf. }
  rewrite Hf'. simpl Item.todo. simpl Item.text.
  assert (Hs : store (saveTodo i a)
               = modify (store a) (Item.todo i) (Todo.set_text (Item.text i)))
    by reflexivity.
  rewrite Hs, id_of_modify by reflexivity. rewrite Hid.
  unfold text_of. rewrite deref_modify_same by assumption. simpl.
  now rewrite String.eqb_refl.
Qed.

Lemma second_commit_is_noop_witness :
  handleSubmit 0 (handleSubmit 0 edited_row) = handleSubmit 0 edited_row.
Proof.
  apply (second_commit_is_noop edited_row 0%nat
           (Item.make 0 (Some "1"%string) false true true false 0%nat "B"%string
                      false false None)); reflexivity.
Defined.

(** X16. Typing a text into the input of an idle todo that has an
    identifier and leaving the input sends one update request with the text
    typed, unless that text is the text of the todo, in which case nothing
    is sent.  Typing alone sends nothing and leaves the todo object alone. *)
Theorem edit_then_commit (a : App.t) (u : nat) (i : Item.t) (value : string) :
  find_item u a = Some i -> Item.isSaving i = false ->
  falsy (id_of (store a) (Item.todo i)) = false ->
  let o := deref (store a) (Item.todo i) in
  let typed := step a (Change u value) in
  log typed = log a /\ store typed = store a /\
  log (step typed (Commit u))
  = if String.eqb (Todo.text o) value then log a
    else log a ++ [FetchSave (Todo.id o) (Todo.make (Todo.id o) value (Todo.createdAt o))].
Proof.
  intros Hf Hs Hid o typed.
  pose proof (truthy_allocated _ _ Hid) as Hlt.
  assert (He : enabled u a = true) by (unfold enabled; now rewrite Hf, Hs).
  assert (Et : typed = update_item u (Item.setText value) a)
    by (unfold typed; simpl; now rewrite He).
  assert (Hf' : find_item u typed = Some (Item.setText value i)).
  { rewrite Et, find_item_update_item by reflexivity. now rewrite Hf. }
  split; [now rewrite Et|]. split; [now rewrite Et|].
  change (step typed (Commit u)) with (handleSubmit u typed).
  unfold handleSubmit. rewrite Hf'. simpl Item.todo. simpl Item.text.
  replace (store typed) with (store a) by now rewrite Et.
  rewrite Hid. unfold text_of. fold o.
  destruct (String.eqb (Todo.text o) value) eqn:E; simpl; [now rewrite Et|].
  unfold saveTodo, id_of. simpl.
  replace (store typed) with (store a) by now rewrite Et.
  rewrite deref_modify_same by assumption. fold o.
  now rewrite Et.
Qed.

Lemma edit_then_commit_witness :
  let o := deref (store one_row) 0%nat in
  let typed := step one_row (Change 0%nat "B"%string) in
  log typed = log one_row /\ store typed = store one_row /\
  log (step typed (Commit 0%nat))
  = if String.eqb (Todo.text o) "B"%string then log one_row
    else log one_row
         ++ [FetchSave (Todo.id o) (Todo.make (Todo.id o) "B"%string (Todo.createdAt o))].
Proof.
  apply (edit_then_commit one_row 0%nat
           (Item.make 0 (Some "1"%string) false true true false 0%nat "A"%string
                      false false None) "B"%string); reflexivity.
Defined.

(** ** The draft slot *)

Lemma draft_render (a : App.t) :
  alive a = true -> isLoading a = false ->
  draft (render a)
  = fst (render_draft (now a) (store a) (draft a) (next_uid a) (newTodo a)).
Proof.
  intros Ha Hl. unfold render. rewrite Ha, Hl. simpl.
  destruct (render_draft _ _ _ _ _) as [d u1].
  now destruct (render_rows _ _ _ _ _) as [rs u2].
Qed.

(** X17. A click on "+" while a draft is open keeps the draft instance,
    with what was typed and its flags, and hands it a new empty todo object:
    there is still one draft, and its text is not lost. *)
Theorem add_keeps_draft (a : App.t) (i : Item.t) :
  reachable a -> shown a = true -> draft a = Some i ->
  let s := step a ClickAdd in
  exists i',
    draft s = Some i' /\
    Item.uid i' = Item.uid i /\ Item.text i' = Item.text i /\
    Item.isSaving i' = Item.isSaving i /\ Item.isChecked i' = Item.isChecked i /\
    newTodo s = Some (Item.todo i') /\
    deref (store s) (Item.todo i') = Todo.blank.
Proof.
  intros Hr Hs Hd.
  destruct (reachable_wf a Hr) as ((_ & _ & Hnew & _) & Hdraft & _).
  destruct (Hnew _ (Hdraft i Hd)) as [Hlt _].
  pose proof Hs as Hs'. unfold shown in Hs'. apply andb_prop in Hs' as [Ha Hl].
  apply negb_true_iff in Hl.
  simpl. unfold shown in Hs. rewrite Hs. unfold startDraft. simpl.
  rewrite draft_render, newTodo_render, store_render by assumption. simpl.
  rewrite Hd.
  replace (Nat.eqb (Item.todo i) (length (store a))) with false
    by (symmetry; apply Nat.eqb_neq; lia).
  eexists. split; [reflexivity|]. simpl. repeat split. apply deref_alloc.
Qed.

Lemma add_keeps_draft_witness :
  let i := Item.make 2 None true false false true 2%nat "C"%string false false None in
  let s := step typed_draft ClickAdd in
  exists i',
    draft s = Some i' /\
    Item.uid i' = Item.uid i /\ Item.text i' = Item.text i /\
    Item.isSaving i' = Item.isSaving i /\ Item.isChecked i' = Item.isChecked i /\
    newTodo s = Some (Item.todo i') /\
    deref (store s) (Item.todo i') = Todo.blank.
Proof.
  intros i. apply (add_keeps_draft typed_draft i); [|reflexivity|reflexivity].
  exists true, 0,
    [Respond 0%nat (RList [Todo.make (Some "9"%string) "nine"%string None;
                           Todo.make (Some "10"%string) "ten"%string None]);
     ClickAdd; Change 2%nat "C"%string].
  vm_compute. reflexivity.
Defined.

(** ** After a reset *)

Lemma isLoading_fires (l : list Item.t) :
  forall a, isLoading (fold_left (fun s i => fire i s) l a) = isLoading a.
Proof.
  induction l as [|i l IH]; intros a; simpl; [reflexivity|]. now rewrite IH.
Qed.

Lemma isLoading_addTodo (l : loc) (a : App.t) : isLoading (addTodo l a) = isLoading a.
Proof.
  unfold addTodo. destruct (alive a); [|reflexivity].
  cbv zeta. rewrite isLoading_render. simpl. now rewrite isLoading_render.
Qed.

Lemma stuck_respond (n : nat) (r : Response) (a : App.t) :
  isMounted a = false -> isLoading (respond n r a) = isLoading a.
Proof.
  intros Hm. unfold respond. destruct (pending a !! n) as [p|]; [|reflexivity].
  destruct p as [|u dc|u ds|u dd l]; destruct r; try reflexivity.
  - unfold loaded. simpl. now rewrite Hm.
  - unfold created. destruct dc; [|reflexivity].
    cbv beta iota zeta delta [alloc]. now rewrite isLoading_addTodo.
  - unfold saved, updateTodo. destruct ds; [|reflexivity].
    cbv beta iota zeta delta [alloc]. simpl.
    destruct (alive a); [|reflexivity]. now rewrite isLoading_render.
  - unfold destroyed, removeTodo. destruct dd; [|reflexivity]. simpl.
    destruct (alive a); [|reflexivity]. now rewrite isLoading_render.
  - unfold destroyed, removeTodo. destruct dd; [|reflexivity]. simpl.
    destruct (alive a); [|reflexivity]. now rewrite isLoading_render.
  - unfold destroyed, removeTodo. destruct dd; [|reflexivity]. simpl.
    destruct (alive a); [|reflexivity]. now rewrite isLoading_render.
Qed.

Lemma stuck_step (a : App.t) (e : Event) :
  isMounted a = false -> isLoading a = true -> isLoading (step a e) = true.
Proof.
  intros Hm Hl. destruct e; simpl.
  - rewrite Hl, andb_false_r. exact Hl.
  - destruct (alive a); [|exact Hl]. unfold resetApp, load_effect.
    destruct (server a); [|exact Hl]. now rewrite isLoading_render.
  - now destruct (enabled u a).
  - unfold handleSubmit.
    destruct (find_item u a) as [i|]; [|exact Hl].
    destruct (falsy _); [exact Hl|]. now destruct (negb _).
  - now destruct (enabled u a).
  - unfold elapse. now rewrite isLoading_fires.
  - now rewrite stuck_respond.
  - now destruct (alive a).
  - exact Hl.
Qed.

(** X19. After "Reset app", with a server, the list never shows again:
    whatever follows, the response to the list request included, the guard
    [isMounted.current] stays closed and [isLoading] stays true. *)
Theorem loading_forever_after_reset (a : App.t) (es : list Event) :
  server a = true ->
  isMounted (run (resetApp a) es) = false /\ isLoading (run (resetApp a) es) = true.
Proof.
  intros Hs.
  assert (H0 : isMounted (resetApp a) = false /\ isLoading (resetApp a) = true).
  { split; [now apply isMounted_resetApp|].
    unfold resetApp, load_effect. rewrite Hs. now rewrite isLoading_render. }
  revert H0. generalize (resetApp a). clear a Hs.
  induction es as [|e es IH]; intros s [Hm Hl]; simpl; [now split|].
  apply IH. split; [now apply isMounted_step|now apply stuck_step].
Qed.

Lemma loading_forever_after_reset_witness :
  isMounted (run (resetApp one_row)
               [Respond 0%nat (RList [Todo.make (Some "7"%string) "fresh"%string None])])
  = false /\
  isLoading (run (resetApp one_row)
               [Respond 0%nat (RList [Todo.make (Some "7"%string) "fresh"%string None])])
  = true.
Proof. apply loading_forever_after_reset. reflexivity. Defined.

(** ** Saving means waiting *)

Lemma render_rows_Forall (Q : Item.t -> Prop) (now : Z) (h : heap)
    (old : list Item.t) (ts : list loc) :
  (forall l i, Q i -> Q (Item.effect now (Item.set_todo l i))) ->
  (forall u l, Q (Item.mount_row u h l)) ->
  Forall Q old ->
  forall u, Forall Q (fst (render_rows now h old u ts)).
Proof.
  intros Hk Hm Hold. induction ts as [|l ts IH]; intros u; simpl; [constructor|].
  destruct (List.find _ old) as [i|] eqn:Hf.
  - specialize (IH u). destruct (render_rows now h old u ts) as [r u'].
    simpl in *. constructor; [|exact IH].
    apply Hk. apply find_some in Hf as [Hin _].
    rewrite List.Forall_forall in Hold. now apply Hold.
  - specialize (IH (S u)). destruct (render_rows now h old (S u) ts) as [r u'].
    simpl in *. constructor; [apply Hm|exact IH].
Qed.

Lemma Forall_instances (Q : Item.t -> Prop) (a : App.t) :
  Forall Q (instances a) <-> (forall d, draft a = Some d -> Q d) /\ Forall Q (rows a).
Proof.
  unfold instances. destruct (draft a) as [d|]; split.
  - intros H. apply Forall_cons_1 in H as [Hd Hr]. split; [now intros ? [= <-]|exact Hr].
  - intros [Hd Hr]. constructor; [now apply Hd|exact Hr].
  - intros H. split; [discriminate|exact H].
  - now intros [_ H].
Qed.

Lemma render_instances_Forall (Q : Item.t -> Prop) (a : App.t) :
  (forall now l i, Q i -> Q (Item.effect now (Item.set_todo l i))) ->
  (forall u h l, Q (Item.mount_row u h l)) ->
  (forall u h l, Q (Item.mount_draft u h l)) ->
  Forall Q (instances a) -> Forall Q (instances (render a)).
Proof.
  intros Hk Hmr Hmd H. apply Forall_instances in H as [Hd Hr].
  apply Forall_instances. unfold render.
  destruct (alive a); simpl; [|now split].
  destruct (isLoading a); simpl; [split; [discriminate|constructor]|].
  assert (Hd' : forall d, fst (render_draft (now a) (store a) (draft a) (next_uid a)
                                 (newTodo a)) = Some d -> Q d).
  { intros d. unfold render_draft. destruct (newTodo a) as [l|]; [|discriminate].
    destruct (draft a) as [i|]; simpl.
    - destruct (Nat.eqb _ _); intros [= <-]; [now apply Hd|now apply Hk, Hd].
    - intros [= <-]. apply Hmd. }
  destruct (render_draft _ _ _ _ _) as [d u1].
  pose proof (render_rows_Forall Q (now a) (store a) (rows a)
                (sorted_todos (store a) (todos a)) (Hk (now a)) (fun u l => Hmr u _ l)
                Hr u1) as Hr'.
  destruct (render_rows _ _ _ _ _) as [rs u2]. simpl in *. now split.
Qed.

Lemma saving_waits_weaken (ps : list Pending) (p : Pending) (i : Item.t) :
  saving_waits ps i -> saving_waits (ps ++ [p]) i.
Proof.
  intros H Hs. rewrite map_app. apply in_or_app. left. now apply H.
Qed.

Lemma saving_ok_render (a : App.t) : saving_ok a -> saving_ok (render a).
Proof.
  unfold saving_ok. rewrite pending_render. apply render_instances_Forall.
  - intros now l i H. exact H.
  - intros u h l H. discriminate H.
  - intros u h l H. discriminate H.
Qed.

Lemma saving_ok_more (s s' : App.t) (p : Pending) :
  instances s' = instances s -> pending s' = pending s ++ [p] ->
  saving_ok s -> saving_ok s'.
Proof.
  intros Hi Hp H. unfold saving_ok. rewrite Hi, Hp.
  eapply Forall_impl; [exact H|]. intros i Hw. now apply saving_waits_weaken.
Qed.

(** An instance starts saving and registers its callback. *)
Lemma saving_ok_fetch (e : Effect) (p : Pending) (u : nat) (a s : App.t) :
  owner p = Some u ->
  instances s = instances (update_item u (Item.setIsSaving true) a) ->
  pending s = pending a ++ [p] ->
  saving_ok a -> saving_ok s.
Proof.
  intros Ho Hi Hp H. unfold saving_ok in *. rewrite Hi, Hp, instances_update_item.
  induction H as [|i l Hw _ IH]; simpl; constructor; [|exact IH].
  unfold on_item. destruct (Nat.eqb (Item.uid i) u) eqn:E.
  - intros _. simpl. apply Nat.eqb_eq in E. rewrite E, map_app.
    apply in_or_app. right. simpl. left. exact Ho.
  - now apply saving_waits_weaken.
Qed.

Lemma saving_ok_keep (u : nat) (f : Item.t -> Item.t) (a : App.t) :
  (forall i, Item.uid (f i) = Item.uid i /\ Item.isSaving (f i) = Item.isSaving i) ->
  saving_ok a -> saving_ok (update_item u f a).
Proof.
  intros Hf H. unfold saving_ok in *.
  change (pending (update_item u f a)) with (pending a).
  rewrite instances_update_item.
  induction H as [|i l Hi _ IH]; simpl; constructor; [|exact IH].
  unfold on_item. destruct (Nat.eqb _ _); [|exact Hi].
  unfold saving_waits. destruct (Hf i) as [-> ->]. exact Hi.
Qed.

Lemma In_owner_delete (ps : list Pending) (n : nat) (p : Pending) (x : option nat) :
  ps !! n = Some p -> owner p <> x ->
  In x (map owner ps) -> In x (map owner (delete n ps)).
Proof.
  revert n. induction ps as [|q ps IH]; intros [|n] Hp Hne Hin; simpl in *;
    try discriminate.
  - injection Hp as ->. destruct Hin as [E|Hin]; [contradiction|exact Hin].
  - destruct Hin as [E|Hin]; [now left|right; now apply (IH n)].
Qed.

(** The response to the request [p] of the instance [u]: the callback is
    consumed and the instance stops saving. *)
Lemma saving_ok_done (n u : nat) (p : Pending) (a : App.t) :
  pending a !! n = Some p -> owner p = Some u ->
  saving_ok a ->
  saving_ok (update_item u (Item.setIsSaving false) (set_pending (delete n (pending a)) a)).
Proof.
  intros Hp Ho H. unfold saving_ok in *.
  change (pending (update_item u (Item.setIsSaving false)
                     (set_pending (delete n (pending a)) a)))
    with (delete n (pending a)).
  rewrite instances_update_item.
  change (instances (set_pending (delete n (pending a)) a)) with (instances a).
  induction H as [|i l Hi _ IH]; simpl; constructor; [|exact IH].
  unfold on_item. destruct (Nat.eqb (Item.uid i) u) eqn:E.
  - intros Hs. discriminate Hs.
  - intros Hs. apply (In_owner_delete _ n p); [exact Hp| |now apply Hi].
    rewrite Ho. intros [= Hu]. rewrite Hu, Nat.eqb_refl in E. discriminate E.
Qed.

Lemma saving_ok_set_store (h : heap) (a : App.t) :
  saving_ok a -> saving_ok (set_store h a).
Proof. intros H. exact H. Qed.

Lemma saving_ok_set_todos (ts : list loc) (a : App.t) :
  saving_ok a -> saving_ok (set_todos ts a).
Proof. intros H. exact H. Qed.

Lemma saving_ok_set_newTodo (l : option loc) (a : App.t) :
  saving_ok a -> saving_ok (set_newTodo l a).
Proof. intros H. exact H. Qed.

Lemma saving_ok_addTodo (l : loc) (a : App.t) : saving_ok a -> saving_ok (addTodo l a).
Proof.
  intros H. unfold addTodo. destruct (alive a); [|exact H]. cbv zeta.
  now apply saving_ok_render, saving_ok_set_todos, saving_ok_render,
    saving_ok_set_newTodo.
Qed.

Lemma saving_ok_fire (i : Item.t) (a : App.t) : saving_ok a -> saving_ok (fire i a).
Proof.
  intros H.
  assert (H1 : saving_ok (update_item (Item.uid i) (Item.set_timeout None) a)).
  { apply saving_ok_keep; [|exact H]. intros j. now split. }
  exact (saving_ok_fetch
           (FetchDestroy (id_of (store a) (Item.todo i))) (await_destroy i)
           (Item.uid i) _ (fire i a) eq_refl eq_refl eq_refl H1).
Qed.

Lemma saving_ok_fires (l : list Item.t) :
  forall a, saving_ok a -> saving_ok (fold_left (fun s i => fire i s) l a).
Proof.
  induction l as [|i l IH]; intros a H; simpl; [exact H|].
  now apply IH, saving_ok_fire.
Qed.

Lemma saving_ok_handleSubmit (u : nat) (a : App.t) :
  saving_ok a -> saving_ok (handleSubmit u a).
Proof.
  intros H. unfold handleSubmit. destruct (find_item u a) as [i|]; [|exact H].
  destruct (falsy _); [|destruct (negb _); [|exact H]].
  - exact (saving_ok_fetch
             (FetchCreate (deref (store (createTodo i a)) (Item.todo i)))
             (AwaitCreate (Item.uid i) (Item.didCreate i)) (Item.uid i) a
             (createTodo i a) eq_refl eq_refl eq_refl H).
  - exact (saving_ok_fetch
             (FetchSave (id_of (store (saveTodo i a)) (Item.todo i))
                        (deref (store (saveTodo i a)) (Item.todo i)))
             (AwaitSave (Item.uid i) (Item.didSave i)) (Item.uid i) a
             (saveTodo i a) eq_refl eq_refl eq_refl H).
Qed.

Lemma saving_ok_respond (n : nat) (r : Response) (a : App.t) :
  saving_ok a -> saving_ok (respond n r a).
Proof.
  intros H. unfold respond. destruct (pending a !! n) as [p|] eqn:Hp; [|exact H].
  assert (Hdone : forall u, owner p = Some u ->
            saving_ok (update_item u (Item.setIsSaving false)
                         (set_pending (delete n (pending a)) a))).
  { intros u Ho. exact (saving_ok_done n u p a Hp Ho H). }
  assert (Hlist : owner p = None -> saving_ok (set_pending (delete n (pending a)) a)).
  { intros Ho. unfold saving_ok in *.
    change (instances (set_pending (delete n (pending a)) a)) with (instances a).
    change (pending (set_pending (delete n (pending a)) a)) with (delete n (pending a)).
    eapply Forall_impl; [exact H|]. intros i Hi Hs.
    apply (In_owner_delete _ n p); [exact Hp|now rewrite Ho|now apply Hi]. }
  assert (Hrm : forall u l, owner p = Some u ->
            saving_ok (removeTodo l (update_item u (Item.setIsSaving false)
                                       (set_pending (delete n (pending a)) a)))).
  { intros u l Ho. unfold removeTodo. destruct (alive _); [|now apply Hdone].
    apply saving_ok_render, saving_ok_set_todos. exact (Hdone u Ho). }
  destruct p as [|u dc|u ds|u dd l]; destruct r; try exact H.
  - unfold loaded. destruct (isMounted _); [|now apply Hlist].
    destruct (alloc_all _ _) as [h ls].
    apply saving_ok_render. exact (Hlist eq_refl).
  - unfold created. destruct dc; [|now apply Hdone].
    cbv beta iota zeta delta [alloc].
    apply saving_ok_addTodo, saving_ok_set_store. exact (Hdone u eq_refl).
  - unfold saved. destruct ds; [|now apply Hdone].
    cbv beta iota zeta delta [alloc]. unfold updateTodo.
    destruct (alive _); [|exact (Hdone u eq_refl)].
    apply saving_ok_render, saving_ok_set_todos, saving_ok_set_store.
    exact (Hdone u eq_refl).
  - unfold destroyed. destruct dd; [now apply Hrm|now apply Hdone].
  - unfold destroyed. destruct dd; [now apply Hrm|now apply Hdone].
  - unfold destroyed. destruct dd; [now apply Hrm|now apply Hdone].
Qed.

Lemma saving_ok_step (a : App.t) (e : Event) :
  fails e = false -> saving_ok a -> saving_ok (step a e).
Proof.
  intros He H. destruct e; simpl; try discriminate He.
  - destruct (alive a && negb (isLoading a)); [|exact H].
    unfold startDraft. simpl. apply saving_ok_render. exact H.
  - destruct (alive a); [|exact H]. unfold resetApp, load_effect.
    destruct (server a); [|exact H]. apply saving_ok_render.
    assert (H1 : saving_ok (render (set_refresh (refresh a + 1)
                                      (set_log (log a ++ [ResetDb]) a)))).
    { apply saving_ok_render. exact H. }
    apply (saving_ok_more
             (render (set_refresh (refresh a + 1) (set_log (log a ++ [ResetDb]) a)))
             _ AwaitList); [reflexivity|reflexivity|exact H1].
  - destruct (enabled u a); [|exact H].
    apply saving_ok_keep; [|exact H]. intros i. now split.
  - now apply saving_ok_handleSubmit.
  - destruct (enabled u a); [|exact H]. unfold handleCheckboxChange.
    apply saving_ok_keep; [|exact H].
    intros i. now destruct (Bool.eqb _ _).
  - unfold elapse. apply saving_ok_fires. exact H.
  - now apply saving_ok_respond.
  - destruct (alive a); [|exact H]. constructor.
Qed.

Lemma saving_ok_run (es : list Event) :
  forallb (fun e => negb (fails e)) es = true ->
  forall a, saving_ok a -> saving_ok (run a es).
Proof.
  induction es as [|e es IH]; simpl; intros Hes a H; [exact H|].
  apply andb_true_iff in Hes as [He Hes].
  apply IH; [exact Hes|]. apply saving_ok_step; [|exact H].
  now destruct (fails e).
Qed.

Lemma saving_ok_mount (server : bool) (t0 : Z) : saving_ok (mount server t0).
Proof.
  unfold mount, load_effect. apply saving_ok_render.
  assert (H : saving_ok (render (App.make server [] false [] None 0 true true None []
                                          0%nat t0 [] [LoadDb]))).
  { apply saving_ok_render. constructor. }
  apply (saving_ok_more
           (render (App.make server [] false [] None 0 true true None [] 0%nat t0 []
                             [LoadDb]))
           _ AwaitList); [reflexivity|reflexivity|exact H].
Qed.

(** X18. As long as no request fails, an instance that shows as saving, its
    controls disabled, has a request of its own awaiting the response: a
    todo is not disabled with nothing in flight. *)
Theorem saving_has_request (a : App.t) (i : Item.t) :
  reachable_unfailing a -> In i (instances a) -> Item.isSaving i = true ->
  exists p, In p (pending a) /\ owner p = Some (Item.uid i).
Proof.
  intros (server & t0 & es & Hes & ->) Hin Hs.
  pose proof (saving_ok_run es Hes _ (saving_ok_mount server t0)) as H.
  unfold saving_ok in H. rewrite List.Forall_forall in H.
  specialize (H i Hin Hs). apply in_map_iff in H as (p & Ho & Hp). eauto.
Qed.

Lemma saving_has_request_witness :
  let i := Item.make 0 (Some "1"%string) false true true false 0%nat "B"%string
                     true false None in
  exists p, In p (pending saving_row) /\ owner p = Some (Item.uid i).
Proof.
  intros i. apply (saving_has_request saving_row i).
  - exists true, 0,
      [Respond 0%nat (RList [Todo.make (Some "1"%string) "A"%string None]);
       Change 0%nat "B"%string; Commit 0%nat].
    split; vm_compute; reflexivity.
  - vm_compute. left. reflexivity.
  - reflexivity.
Defined.

